(** * BakeChat: article-aware document segmentation and retrieval ranking

    A shallow embedding of the Python sources

    - [extract_documents.py]  (text normaliser, article segmenter, document builder),
    - [index_manager.py]      (index construction and update),
    - [query_handler.py]      (retrieval filter, context assembly, answer operation),

    together with the properties of the design document that concern them.

    Python strings are sequences of Unicode code points; they are modelled as
    lists of code points.  The regular expressions of the sources are written
    in an abstract syntax and run by a backtracking matcher that follows the
    priorities of Python's [re] module.  Exceptions, the module-level logger
    and the log are modelled by a small state-and-exception monad. *)

From Stdlib Require Import List NArith ZArith Bool Arith Lia Sorted.
From Stdlib Require String Ascii DecimalString.
From Stdlib Require Import PrimFloat.
From Stdlib Require PrimInt63.
Import ListNotations String.StringSyntax.

Delimit Scope string_scope with string.
Bind Scope string_scope with String.string.

Set Implicit Arguments.
#[local] Set Warnings "-inexact-float".

(* ================================================================== *)
(** * Unicode character classes *)
(* ================================================================== *)

(** A character is a Unicode code point, a string a list of them. *)
Definition char := N.
Definition str := list char.

Module Unicode.

(** Inclusive code-point ranges of the Unicode Character Database (version
    14.0.0, the one of CPython 3.11).  [space_table] is [str.isspace]
    (and [\s]), [decimal_table] is [str.isdecimal] (and [\d]),
    [alnum_table] is [str.isalnum] ([\w] is [alnum] or the underscore). *)

Definition space_table : list (N * N) :=
  [(9, 13); (28, 32); (133, 133); (160, 160); (5760, 5760); (8192, 8202);
   (8232, 8233); (8239, 8239); (8287, 8287); (12288, 12288)]%N.

Definition decimal_table : list (N * N) :=
  [(48, 57); (1632, 1641); (1776, 1785); (1984, 1993); (2406, 2415);
   (2534, 2543); (2662, 2671); (2790, 2799); (2918, 2927); (3046, 3055);
   (3174, 3183); (3302, 3311); (3430, 3439); (3558, 3567); (3664, 3673);
   (3792, 3801); (3872, 3881); (4160, 4169); (4240, 4249); (6112, 6121);
   (6160, 6169); (6470, 6479); (6608, 6617); (6784, 6793); (6800, 6809);
   (6992, 7001); (7088, 7097); (7232, 7241); (7248, 7257); (42528, 42537);
   (43216, 43225); (43264, 43273); (43472, 43481); (43504, 43513);
   (43600, 43609); (44016, 44025); (65296, 65305); (66720, 66729);
   (68912, 68921); (69734, 69743); (69872, 69881); (69942, 69951);
   (70096, 70105); (70384, 70393); (70736, 70745); (70864, 70873);
   (71248, 71257); (71360, 71369); (71472, 71481); (71904, 71913);
   (72016, 72025); (72784, 72793); (73040, 73049); (73120, 73129);
   (92768, 92777); (92864, 92873); (93008, 93017); (120782, 120831);
   (123200, 123209); (123632, 123641); (125264, 125273); (130032, 130041)]%N.

Definition alnum_table : list (N * N) :=
  [(48, 57); (65, 90); (97, 122); (170, 170); (178, 179); (181, 181);
   (185, 186); (188, 190); (192, 214); (216, 246); (248, 705); (710, 721);
   (736, 740); (748, 748); (750, 750); (880, 884); (886, 887); (890, 893);
   (895, 895); (902, 902); (904, 906); (908, 908); (910, 929); (931, 1013);
   (1015, 1153); (1162, 1327); (1329, 1366); (1369, 1369); (1376, 1416);
   (1488, 1514); (1519, 1522); (1568, 1610); (1632, 1641); (1646, 1647);
   (1649, 1747); (1749, 1749); (1765, 1766); (1774, 1788); (1791, 1791);
   (1808, 1808); (1810, 1839); (1869, 1957); (1969, 1969); (1984, 2026);
   (2036, 2037); (2042, 2042); (2048, 2069); (2074, 2074); (2084, 2084);
   (2088, 2088); (2112, 2136); (2144, 2154); (2160, 2183); (2185, 2190);
   (2208, 2249); (2308, 2361); (2365, 2365); (2384, 2384); (2392, 2401);
   (2406, 2415); (2417, 2432); (2437, 2444); (2447, 2448); (2451, 2472);
   (2474, 2480); (2482, 2482); (2486, 2489); (2493, 2493); (2510, 2510);
   (2524, 2525); (2527, 2529); (2534, 2545); (2548, 2553); (2556, 2556);
   (2565, 2570); (2575, 2576); (2579, 2600); (2602, 2608); (2610, 2611);
   (2613, 2614); (2616, 2617); (2649, 2652); (2654, 2654); (2662, 2671);
   (2674, 2676); (2693, 2701); (2703, 2705); (2707, 2728); (2730, 2736);
   (2738, 2739); (2741, 2745); (2749, 2749); (2768, 2768); (2784, 2785);
   (2790, 2799); (2809, 2809); (2821, 2828); (2831, 2832); (2835, 2856);
   (2858, 2864); (2866, 2867); (2869, 2873); (2877, 2877); (2908, 2909);
   (2911, 2913); (2918, 2927); (2929, 2935); (2947, 2947); (2949, 2954);
   (2958, 2960); (2962, 2965); (2969, 2970); (2972, 2972); (2974, 2975);
   (2979, 2980); (2984, 2986); (2990, 3001); (3024, 3024); (3046, 3058);
   (3077, 3084); (3086, 3088); (3090, 3112); (3114, 3129); (3133, 3133);
   (3160, 3162); (3165, 3165); (3168, 3169); (3174, 3183); (3192, 3198);
   (3200, 3200); (3205, 3212); (3214, 3216); (3218, 3240); (3242, 3251);
   (3253, 3257); (3261, 3261); (3293, 3294); (3296, 3297); (3302, 3311);
   (3313, 3314); (3332, 3340); (3342, 3344); (3346, 3386); (3389, 3389);
   (3406, 3406); (3412, 3414); (3416, 3425); (3430, 3448); (3450, 3455);
   (3461, 3478); (3482, 3505); (3507, 3515); (3517, 3517); (3520, 3526);
   (3558, 3567); (3585, 3632); (3634, 3635); (3648, 3654); (3664, 3673);
   (3713, 3714); (3716, 3716); (3718, 3722); (3724, 3747); (3749, 3749);
   (3751, 3760); (3762, 3763); (3773, 3773); (3776, 3780); (3782, 3782);
   (3792, 3801); (3804, 3807); (3840, 3840); (3872, 3891); (3904, 3911);
   (3913, 3948); (3976, 3980); (4096, 4138); (4159, 4169); (4176, 4181);
   (4186, 4189); (4193, 4193); (4197, 4198); (4206, 4208); (4213, 4225);
   (4238, 4238); (4240, 4249); (4256, 4293); (4295, 4295); (4301, 4301);
   (4304, 4346); (4348, 4680); (4682, 4685); (4688, 4694); (4696, 4696);
   (4698, 4701); (4704, 4744); (4746, 4749); (4752, 4784); (4786, 4789);
   (4792, 4798); (4800, 4800); (4802, 4805); (4808, 4822); (4824, 4880);
   (4882, 4885); (4888, 4954); (4969, 4988); (4992, 5007); (5024, 5109);
   (5112, 5117); (5121, 5740); (5743, 5759); (5761, 5786); (5792, 5866);
   (5870, 5880); (5888, 5905); (5919, 5937); (5952, 5969); (5984, 5996);
   (5998, 6000); (6016, 6067); (6103, 6103); (6108, 6108); (6112, 6121);
   (6128, 6137); (6160, 6169); (6176, 6264); (6272, 6276); (6279, 6312);
   (6314, 6314); (6320, 6389); (6400, 6430); (6470, 6509); (6512, 6516);
   (6528, 6571); (6576, 6601); (6608, 6618); (6656, 6678); (6688, 6740);
   (6784, 6793); (6800, 6809); (6823, 6823); (6917, 6963); (6981, 6988);
   (6992, 7001); (7043, 7072); (7086, 7141); (7168, 7203); (7232, 7241);
   (7245, 7293); (7296, 7304); (7312, 7354); (7357, 7359); (7401, 7404);
   (7406, 7411); (7413, 7414); (7418, 7418); (7424, 7615); (7680, 7957);
   (7960, 7965); (7968, 8005); (8008, 8013); (8016, 8023); (8025, 8025);
   (8027, 8027); (8029, 8029); (8031, 8061); (8064, 8116); (8118, 8124);
   (8126, 8126); (8130, 8132); (8134, 8140); (8144, 8147); (8150, 8155);
   (8160, 8172); (8178, 8180); (8182, 8188); (8304, 8305); (8308, 8313);
   (8319, 8329); (8336, 8348); (8450, 8450); (8455, 8455); (8458, 8467);
   (8469, 8469); (8473, 8477); (8484, 8484); (8486, 8486); (8488, 8488);
   (8490, 8493); (8495, 8505); (8508, 8511); (8517, 8521); (8526, 8526);
   (8528, 8585); (9312, 9371); (9450, 9471); (10102, 10131); (11264, 11492);
   (11499, 11502); (11506, 11507); (11517, 11517); (11520, 11557);
   (11559, 11559); (11565, 11565); (11568, 11623); (11631, 11631);
   (11648, 11670); (11680, 11686); (11688, 11694); (11696, 11702);
   (11704, 11710); (11712, 11718); (11720, 11726); (11728, 11734);
   (11736, 11742); (11823, 11823); (12293, 12295); (12321, 12329);
   (12337, 12341); (12344, 12348); (12353, 12438); (12445, 12447);
   (12449, 12538); (12540, 12543); (12549, 12591); (12593, 12686);
   (12690, 12693); (12704, 12735); (12784, 12799); (12832, 12841);
   (12872, 12879); (12881, 12895); (12928, 12937); (12977, 12991);
   (13312, 19903); (19968, 42124); (42192, 42237); (42240, 42508);
   (42512, 42539); (42560, 42606); (42623, 42653); (42656, 42735);
   (42775, 42783); (42786, 42888); (42891, 42954); (42960, 42961);
   (42963, 42963); (42965, 42969); (42994, 43009); (43011, 43013);
   (43015, 43018); (43020, 43042); (43056, 43061); (43072, 43123);
   (43138, 43187); (43216, 43225); (43250, 43255); (43259, 43259);
   (43261, 43262); (43264, 43301); (43312, 43334); (43360, 43388);
   (43396, 43442); (43471, 43481); (43488, 43492); (43494, 43518);
   (43520, 43560); (43584, 43586); (43588, 43595); (43600, 43609);
   (43616, 43638); (43642, 43642); (43646, 43695); (43697, 43697);
   (43701, 43702); (43705, 43709); (43712, 43712); (43714, 43714);
   (43739, 43741); (43744, 43754); (43762, 43764); (43777, 43782);
   (43785, 43790); (43793, 43798); (43808, 43814); (43816, 43822);
   (43824, 43866); (43868, 43881); (43888, 44002); (44016, 44025);
   (44032, 55203); (55216, 55238); (55243, 55291); (63744, 64109);
   (64112, 64217); (64256, 64262); (64275, 64279); (64285, 64285);
   (64287, 64296); (64298, 64310); (64312, 64316); (64318, 64318);
   (64320, 64321); (64323, 64324); (64326, 64433); (64467, 64829);
   (64848, 64911); (64914, 64967); (65008, 65019); (65136, 65140);
   (65142, 65276); (65296, 65305); (65313, 65338); (65345, 65370);
   (65382, 65470); (65474, 65479); (65482, 65487); (65490, 65495);
   (65498, 65500); (65536, 65547); (65549, 65574); (65576, 65594);
   (65596, 65597); (65599, 65613); (65616, 65629); (65664, 65786);
   (65799, 65843); (65856, 65912); (65930, 65931); (66176, 66204);
   (66208, 66256); (66273, 66299); (66304, 66339); (66349, 66378);
   (66384, 66421); (66432, 66461); (66464, 66499); (66504, 66511);
   (66513, 66517); (66560, 66717); (66720, 66729); (66736, 66771);
   (66776, 66811); (66816, 66855); (66864, 66915); (66928, 66938);
   (66940, 66954); (66956, 66962); (66964, 66965); (66967, 66977);
   (66979, 66993); (66995, 67001); (67003, 67004); (67072, 67382);
   (67392, 67413); (67424, 67431); (67456, 67461); (67463, 67504);
   (67506, 67514); (67584, 67589); (67592, 67592); (67594, 67637);
   (67639, 67640); (67644, 67644); (67647, 67669); (67672, 67702);
   (67705, 67742); (67751, 67759); (67808, 67826); (67828, 67829);
   (67835, 67867); (67872, 67897); (67968, 68023); (68028, 68047);
   (68050, 68096); (68112, 68115); (68117, 68119); (68121, 68149);
   (68160, 68168); (68192, 68222); (68224, 68255); (68288, 68295);
   (68297, 68324); (68331, 68335); (68352, 68405); (68416, 68437);
   (68440, 68466); (68472, 68497); (68521, 68527); (68608, 68680);
   (68736, 68786); (68800, 68850); (68858, 68899); (68912, 68921);
   (69216, 69246); (69248, 69289); (69296, 69297); (69376, 69415);
   (69424, 69445); (69457, 69460); (69488, 69505); (69552, 69579);
   (69600, 69622); (69635, 69687); (69714, 69743); (69745, 69746);
   (69749, 69749); (69763, 69807); (69840, 69864); (69872, 69881);
   (69891, 69926); (69942, 69951); (69956, 69956); (69959, 69959);
   (69968, 70002); (70006, 70006); (70019, 70066); (70081, 70084);
   (70096, 70106); (70108, 70108); (70113, 70132); (70144, 70161);
   (70163, 70187); (70272, 70278); (70280, 70280); (70282, 70285);
   (70287, 70301); (70303, 70312); (70320, 70366); (70384, 70393);
   (70405, 70412); (70415, 70416); (70419, 70440); (70442, 70448);
   (70450, 70451); (70453, 70457); (70461, 70461); (70480, 70480);
   (70493, 70497); (70656, 70708); (70727, 70730); (70736, 70745);
   (70751, 70753); (70784, 70831); (70852, 70853); (70855, 70855);
   (70864, 70873); (71040, 71086); (71128, 71131); (71168, 71215);
   (71236, 71236); (71248, 71257); (71296, 71338); (71352, 71352);
   (71360, 71369); (71424, 71450); (71472, 71483); (71488, 71494);
   (71680, 71723); (71840, 71922); (71935, 71942); (71945, 71945);
   (71948, 71955); (71957, 71958); (71960, 71983); (71999, 71999);
   (72001, 72001); (72016, 72025); (72096, 72103); (72106, 72144);
   (72161, 72161); (72163, 72163); (72192, 72192); (72203, 72242);
   (72250, 72250); (72272, 72272); (72284, 72329); (72349, 72349);
   (72368, 72440); (72704, 72712); (72714, 72750); (72768, 72768);
   (72784, 72812); (72818, 72847); (72960, 72966); (72968, 72969);
   (72971, 73008); (73030, 73030); (73040, 73049); (73056, 73061);
   (73063, 73064); (73066, 73097); (73112, 73112); (73120, 73129);
   (73440, 73458); (73648, 73648); (73664, 73684); (73728, 74649);
   (74752, 74862); (74880, 75075); (77712, 77808); (77824, 78894);
   (82944, 83526); (92160, 92728); (92736, 92766); (92768, 92777);
   (92784, 92862); (92864, 92873); (92880, 92909); (92928, 92975);
   (92992, 92995); (93008, 93017); (93019, 93025); (93027, 93047);
   (93053, 93071); (93760, 93846); (93952, 94026); (94032, 94032);
   (94099, 94111); (94176, 94177); (94179, 94179); (94208, 100343);
   (100352, 101589); (101632, 101640); (110576, 110579); (110581, 110587);
   (110589, 110590); (110592, 110882); (110928, 110930); (110948, 110951);
   (110960, 111355); (113664, 113770); (113776, 113788); (113792, 113800);
   (113808, 113817); (119520, 119539); (119648, 119672); (119808, 119892);
   (119894, 119964); (119966, 119967); (119970, 119970); (119973, 119974);
   (119977, 119980); (119982, 119993); (119995, 119995); (119997, 120003);
   (120005, 120069); (120071, 120074); (120077, 120084); (120086, 120092);
   (120094, 120121); (120123, 120126); (120128, 120132); (120134, 120134);
   (120138, 120144); (120146, 120485); (120488, 120512); (120514, 120538);
   (120540, 120570); (120572, 120596); (120598, 120628); (120630, 120654);
   (120656, 120686); (120688, 120712); (120714, 120744); (120746, 120770);
   (120772, 120779); (120782, 120831); (122624, 122654); (123136, 123180);
   (123191, 123197); (123200, 123209); (123214, 123214); (123536, 123565);
   (123584, 123627); (123632, 123641); (124896, 124902); (124904, 124907);
   (124909, 124910); (124912, 124926); (124928, 125124); (125127, 125135);
   (125184, 125251); (125259, 125259); (125264, 125273); (126065, 126123);
   (126125, 126127); (126129, 126132); (126209, 126253); (126255, 126269);
   (126464, 126467); (126469, 126495); (126497, 126498); (126500, 126500);
   (126503, 126503); (126505, 126514); (126516, 126519); (126521, 126521);
   (126523, 126523); (126530, 126530); (126535, 126535); (126537, 126537);
   (126539, 126539); (126541, 126543); (126545, 126546); (126548, 126548);
   (126551, 126551); (126553, 126553); (126555, 126555); (126557, 126557);
   (126559, 126559); (126561, 126562); (126564, 126564); (126567, 126570);
   (126572, 126578); (126580, 126583); (126585, 126588); (126590, 126590);
   (126592, 126601); (126603, 126619); (126625, 126627); (126629, 126633);
   (126635, 126651); (127232, 127244); (130032, 130041); (131072, 173791);
   (173824, 177976); (177984, 178205); (178208, 183969); (183984, 191456);
   (194560, 195101); (196608, 201546)]%N.

Fixpoint in_ranges (t : list (N * N)) (c : char) : bool :=
  match t with
  | [] => false
  | (lo, hi) :: t' => ((lo <=? c) && (c <=? hi))%N || in_ranges t' c
  end.

Definition isspace (c : char) : bool := in_ranges space_table c.
Definition isdecimal (c : char) : bool := in_ranges decimal_table c.
Definition isalnum (c : char) : bool := in_ranges alnum_table c.

End Unicode.

(* ================================================================== *)
(** * Python [str] operations *)
(* ================================================================== *)

Module Str.

(** String literals of this file are UTF-8 encoded; [py] decodes one into
    its code points, so that [py "Artículo"] is the eight-character Python
    string of the source. *)
Fixpoint utf8 (bs : list N) (need : nat) (acc : N) : str :=
  match bs with
  | [] => []
  | b :: t =>
      match need with
      | S n =>
          let acc' := (acc * 64 + b mod 64)%N in
          match n with
          | O => acc' :: utf8 t 0 0%N
          | S _ => utf8 t n acc'
          end
      | O =>
          if (b <? 128)%N then b :: utf8 t 0 0%N
          else if (b <? 224)%N then utf8 t 1 (b mod 32)%N
          else if (b <? 240)%N then utf8 t 2 (b mod 16)%N
          else utf8 t 3 (b mod 8)%N
      end
  end.

Definition py (s : String.string) : str :=
  utf8 (map Ascii.N_of_ascii (String.list_ascii_of_string s)) 0 0%N.


(** Named characters. *)
Definition TAB : char := 9%N.
Definition LF : char := 10%N.
Definition FF : char := 12%N.
Definition SP : char := 32%N.

(** [a == b] on strings. *)
Fixpoint equal (a b : str) : bool :=
  match a, b with
  | [], [] => true
  | x :: a', y :: b' => N.eqb x y && equal a' b'
  | _, _ => false
  end.

(** [s.startswith(p)] *)
Fixpoint startswith (s p : str) : bool :=
  match p with
  | [] => true
  | a :: p' =>
      match s with
      | [] => false
      | b :: s' => N.eqb a b && startswith s' p'
      end
  end.

(** [s.endswith(p)] *)
Definition endswith (s p : str) : bool := startswith (rev s) (rev p).

(** [sub in s] *)
Fixpoint contains (sub s : str) : bool :=
  startswith s sub ||
  match s with
  | [] => false
  | _ :: t => contains sub t
  end.

(** [s.lstrip()], [s.rstrip()], [s.strip()]: whitespace is [str.isspace]. *)
Fixpoint lstrip (s : str) : str :=
  match s with
  | [] => []
  | c :: t => if Unicode.isspace c then lstrip t else s
  end.

Definition rstrip (s : str) : str := rev (lstrip (rev s)).

Definition strip (s : str) : str := rstrip (lstrip s).

(** [s.replace(old, new)]: the occurrences of [old] are found from left to
    right without overlap; [skip] counts the characters of an occurrence
    still to be passed over.  With an empty [old], [new] is inserted before
    every character and at the end. *)
Fixpoint replace_from (old new s : str) (skip : nat) : str :=
  match s with
  | [] => match old, skip with [], O => new | _, _ => [] end
  | c :: t =>
      match skip with
      | S k => replace_from old new t k
      | O =>
          match old with
          | [] => new ++ c :: replace_from old new t 0
          | _ :: old' =>
              if startswith s old
              then new ++ replace_from old new t (length old')
              else c :: replace_from old new t 0
          end
      end
  end.

Definition replace (s old new : str) : str := replace_from old new s 0.

(** [sep.join(parts)] *)
Fixpoint join (sep : str) (parts : list str) : str :=
  match parts with
  | [] => []
  | [p] => p
  | p :: rest => p ++ sep ++ join sep rest
  end.

(** [s.split()]: the maximal runs of characters that are not whitespace;
    [word] is the run being read. *)
Fixpoint split_from (s word : str) : list str :=
  match s with
  | [] => match word with [] => [] | _ => [word] end
  | c :: t =>
      if Unicode.isspace c
      then match word with [] => split_from t [] | _ => word :: split_from t [] end
      else split_from t (word ++ [c])
  end.

Definition split (s : str) : list str := split_from s [].

(** [str(n)] for a non-negative integer. *)
Definition of_N (n : N) : str := py (DecimalString.NilEmpty.string_of_uint (N.to_uint n)).

End Str.

Import Str.

(* ================================================================== *)
(** * Regular expressions: the fragment of Python's [re] the sources use *)
(* ================================================================== *)

Module Re.

(** Members of a bracketed set: a literal character, [\d], [\s], [\w]. *)
Inductive item :=
| Chr (c : char)
| Digit
| Space
| Word.

(** [Dot] is [.] under [re.DOTALL]; [OneOf l] is [[l]]; [NoneOf l] is [[^l]]. *)
Inductive cset :=
| Dot
| OneOf (items : list item)
| NoneOf (items : list item).

Definition item_has (i : item) (c : char) : bool :=
  match i with
  | Chr a => N.eqb a c
  | Digit => Unicode.isdecimal c
  | Space => Unicode.isspace c
  | Word => Unicode.isalnum c || N.eqb c 95
  end.

Definition has (cs : cset) (c : char) : bool :=
  match cs with
  | Dot => true
  | OneOf l => existsb (fun i => item_has i c) l
  | NoneOf l => negb (existsb (fun i => item_has i c) l)
  end.

(** Patterns.  The sources repeat character sets only, so a repetition
    [Rep cs lo greedy] is [cs{lo,}] (greedy) or [cs{lo,}?] (lazy): [cs*] is
    [Rep cs 0 true], [cs+] is [Rep cs 1 true], [.*?] is [Rep Dot 0 false]. *)
Inductive regex :=
| Lit (w : str)                             (* literal text *)
| One (cs : cset)                           (* one character of a set *)
| Rep (cs : cset) (lo : nat) (greedy : bool)
| Cat (r1 r2 : regex)                       (* r1 r2 *)
| Alt (r1 r2 : regex)                       (* r1|r2 *)
| Group (i : nat) (r : regex)               (* i-th capturing group *)
| Ahead (r : regex)                         (* (?=r) *)
| Eos.                                      (* $ without re.MULTILINE *)

(** Captured groups, most recent first. *)
Definition groups := list (nat * str).

(** What was consumed between position [s] and the later position [s']. *)
Definition consumed (s s' : str) : str := firstn (length s - length s') s.

(** [s] after 0, 1, 2, ... leading characters of [cs]. *)
Fixpoint tails_in (cs : cset) (s : str) : list str :=
  s :: match s with
       | c :: t => if has cs c then tails_in cs t else []
       | [] => []
       end.

(** All the ways [r] matches at the start of [s], in the order in which a
    backtracking matcher tries them: the first is the one [re] reports.
    Each is the input left after the match together with the groups. *)
Fixpoint runs (r : regex) (s : str) (g : groups) : list (str * groups) :=
  match r with
  | Lit w => if startswith s w then [(skipn (length w) s, g)] else []
  | One cs =>
      match s with
      | c :: t => if has cs c then [(t, g)] else []
      | [] => []
      end
  | Rep cs lo greedy =>
      let ends := skipn lo (tails_in cs s) in
      map (fun s' => (s', g)) (if greedy then rev ends else ends)
  | Cat r1 r2 => flat_map (fun e => runs r2 (fst e) (snd e)) (runs r1 s g)
  | Alt r1 r2 => runs r1 s g ++ runs r2 s g
  | Group i r1 =>
      map (fun e => (fst e, (i, consumed s (fst e)) :: snd e)) (runs r1 s g)
  | Ahead r1 =>
      match runs r1 s g with
      | [] => []
      | e :: _ => [(s, snd e)]
      end
  | Eos =>
      match s with
      | [] => [(s, g)]
      | [c] => if N.eqb c LF then [(s, g)] else []
      | _ => []
      end
  end.

(** A match object: the text skipped before the match, the matched text,
    the text after it and the groups. *)
Record found := {
  before : str;
  matched : str;
  after : str;
  captures : groups
}.

(** [m.group(i)]; a group that took no part yields [None]. *)
Fixpoint lookup (i : nat) (g : groups) : option str :=
  match g with
  | [] => None
  | (j, w) :: g' => if Nat.eqb i j then Some w else lookup i g'
  end.

Definition group (i : nat) (m : found) : option str := lookup i (captures m).

(** The first match starting exactly at [s]; with [nonempty] an empty match
    is refused and the matcher backtracks for another. *)
Definition match_at (r : regex) (s : str) (nonempty : bool) : option (str * groups) :=
  hd_error
    (filter (fun e => negb nonempty || (length (fst e) <? length s)) (runs r s [])).

(** [re.search]: the leftmost match. *)
Fixpoint search_from (r : regex) (s : str) (nonempty : bool) : option found :=
  match match_at r s nonempty with
  | Some e =>
      Some {| before := []; matched := consumed s (fst e);
              after := fst e; captures := snd e |}
  | None =>
      match s with
      | [] => None
      | c :: t =>
          match search_from r t false with
          | Some m =>
              Some {| before := c :: before m; matched := matched m;
                      after := after m; captures := captures m |}
          | None => None
          end
      end
  end.

Definition search (r : regex) (s : str) : option found := search_from r s false.

(** The scanning loop of [re.finditer] and [re.sub]: each search resumes
    where the previous match ended, and after an empty match the next one
    may not be empty at the same place. *)
Fixpoint scan (fuel : nat) (r : regex) (s : str) (nonempty : bool) : list found :=
  match fuel with
  | O => []
  | S fuel' =>
      match search_from r s nonempty with
      | None => []
      | Some m =>
          m :: scan fuel' r (after m) (match matched m with [] => true | _ => false end)
      end
  end.

(** Every round but one in two consumes a character, so this many rounds
    exhaust the text. *)
Definition finditer (r : regex) (s : str) : list found :=
  scan (2 * length s + 2) r s false.

(** [re.sub(r, repl, s)] for a replacement without back-references. *)
Fixpoint rebuild (repl : str) (ms : list found) (rest : str) : str :=
  match ms with
  | [] => rest
  | m :: ms' => before m ++ repl ++ rebuild repl ms' (after m)
  end.

Definition sub (r : regex) (repl s : str) : str := rebuild repl (finditer r s) s.

End Re.

Import Re.

Declare Scope regex_scope.
Delimit Scope regex_scope with re.
Bind Scope regex_scope with regex.
Infix "+>" := Cat (at level 61, right associativity) : regex_scope.
Infix "<|>" := Alt (at level 62, right associativity) : regex_scope.

(* ================================================================== *)
(** * Exceptions, the log and module namespaces *)
(* ================================================================== *)

(** A raised exception: its class and [str(e)].  Every exception modelled
    here is a subclass of [Exception]. *)
Inductive exn := Exception (cls : String.string) (msg : str).

Definition exn_str (e : exn) : str := match e with Exception _ m => m end.

Inductive outcome (A : Type) :=
| Return (a : A)
| Raise (e : exn).

Arguments Raise {A} e.

(** Records written through [logger.warning] and [logger.error]; records
    of level INFO carry no information used below and are left out. *)
Inductive level := WARNING | ERROR.

Record log_record := { record_level : level; record_text : str }.

(** A computation reads and extends the log and returns or raises. *)
Definition M (A : Type) : Type := list log_record -> outcome A * list log_record.

Definition ret {A} (a : A) : M A := fun log => (Return a, log).

Definition raise {A} (e : exn) : M A := fun log => (Raise e, log).

Definition bind {A B} (m : M A) (k : A -> M B) : M B :=
  fun log =>
    match m log with
    | (Return a, log') => k a log'
    | (Raise e, log') => (Raise e, log')
    end.

(** The result of a call into an external library. *)
Definition call {A} (o : outcome A) : M A := fun log => (o, log).

(** [try: body  except Exception as e: handler(e)] *)
Definition try_except {A} (body : M A) (handler : exn -> M A) : M A :=
  fun log =>
    match body log with
    | (Return a, log') => (Return a, log')
    | (Raise e, log') => handler e log'
    end.

Declare Scope monad_scope.
Delimit Scope monad_scope with monad.
Notation "x <- m ; k" := (bind m (fun x => k))
  (at level 100, m at next level, right associativity) : monad_scope.
Notation "m ;> k" := (bind m (fun _ => k))
  (at level 100, right associativity) : monad_scope.

(** The names bound at the top level of a module.  Evaluating a global
    name that is not bound raises [NameError]. *)
Definition namespace := list String.string.

Definition bound (globals : namespace) (name : String.string) : bool :=
  existsb (String.eqb name) globals.

Definition name_error (name : String.string) : exn :=
  Exception "NameError" (py "name '" ++ py name ++ py "' is not defined").

(** [logger.warning(msg)] and [logger.error(msg)], evaluated in a module
    whose top-level names are [globals]. *)
Definition logger_log (globals : namespace) (lv : level) (msg : str) : M unit :=
  fun log =>
    if bound globals "logger"
    then (Return tt, log ++ [{| record_level := lv; record_text := msg |}])
    else (Raise (name_error "logger"), log).

(* ================================================================== *)
(** * Documents *)
(* ================================================================== *)

(** Values stored in a document's metadata. *)
Inductive value :=
| VStr (s : str)
| VInt (n : N)
| VNone.

Definition value_eqb (a b : value) : bool :=
  match a, b with
  | VStr x, VStr y => Str.equal x y
  | VInt x, VInt y => N.eqb x y
  | VNone, VNone => true
  | _, _ => false
  end.

(** [str(v)], as an f-string renders it. *)
Definition value_str (v : value) : str :=
  match v with
  | VStr s => s
  | VInt n => Str.of_N n
  | VNone => py "None"
  end.

(** A [dict] with string keys, in insertion order. *)
Definition dict := list (String.string * value).

(** [d.get(k)] *)
Fixpoint dict_get (d : dict) (k : String.string) : option value :=
  match d with
  | [] => None
  | (k', v) :: d' => if String.eqb k k' then Some v else dict_get d' k
  end.

(** [d[k] = v] *)
Fixpoint dict_set (d : dict) (k : String.string) (v : value) : dict :=
  match d with
  | [] => [(k, v)]
  | (k', v') :: d' =>
      if String.eqb k k' then (k', v) :: d' else (k', v') :: dict_set d' k v
  end.

(** [d.update(items)] *)
Definition dict_update (d : dict) (items : dict) : dict :=
  fold_left (fun acc kv => dict_set acc (fst kv) (snd kv)) items d.

(** langchain's [Document]. *)
Record Document := {
  page_content : str;
  metadata : dict
}.

(* ================================================================== *)
(** * extract_documents.py *)
(* ================================================================== *)

(** The character written as a one-character literal. *)
Definition ch (s : String.string) : char := hd 0%N (py s).

Module ExtractDocuments.

(** Top-level names of the module: its imports, [logger] (line 17) and its
    functions. *)
Definition globals : namespace :=
  ["os"; "re"; "logging"; "List"; "Dict"; "Any"; "pdfplumber";
   "RecursiveCharacterTextSplitter"; "Document"; "logger";
   "extract_article_with_context"; "clean_text"; "log_extraction_details";
   "extract_text_from_folder"]%string.

(** [(?:Artículo|Art\.)] *)
Definition marker : regex := (Lit (py "Artículo") <|> Lit (py "Art."))%re.

(** [(?:Artículo|Art\.) *(\d+)[.\s]+(.*?)(?=(?:Artículo|Art\.) *\d+[.\s]|$)],
    compiled with [re.DOTALL] and no other flag. *)
Definition article_pattern : regex :=
  (marker
   +> Rep (OneOf [Chr (ch " ")]) 0 true
   +> Group 1 (Rep (OneOf [Digit]) 1 true)
   +> Rep (OneOf [Chr (ch "."); Space]) 1 true
   +> Group 2 (Rep Dot 0 false)
   +> Ahead ((marker
              +> Rep (OneOf [Chr (ch " ")]) 0 true
              +> Rep (OneOf [Digit]) 1 true
              +> One (OneOf [Chr (ch "."); Space]))
             <|> Eos))%re.

(** The dictionaries [{'number': ..., 'content': ...}]. *)
Record article := {
  number : str;
  content : str
}.

(** The text of a group that took part in the match (both groups of
    [article_pattern] always do). *)
Definition group_text (i : nat) (m : found) : str :=
  match group i m with
  | Some w => w
  | None => []
  end.

Definition extract_article_with_context (text : str) : list article :=
  map (fun m =>
         let article_num := group_text 1 m in
         let content := strip (group_text 2 m) in
         {| number := article_num;
            content := py "Artículo " ++ article_num ++ py ". " ++ content |})
      (finditer article_pattern text).

(** [[ \t]+], [\n{3,}] and [[^\w\s\.,;:()¿?¡!-]]. *)
Definition blanks : regex := Rep (OneOf [Chr SP; Chr TAB]) 1 true.

Definition newlines3 : regex := Rep (OneOf [Chr LF]) 3 true.

Definition allow_list : list item :=
  [Word; Space; Chr (ch "."); Chr (ch ","); Chr (ch ";"); Chr (ch ":");
   Chr (ch "("); Chr (ch ")"); Chr (ch "¿"); Chr (ch "?"); Chr (ch "¡");
   Chr (ch "!"); Chr (ch "-")].

Definition special : regex := One (NoneOf allow_list).

Definition clean_text (text : str) : str :=
  match text with
  | [] => []
  | _ =>
      let text := replace text [FF] [LF; LF] in
      let text := sub blanks [SP] text in
      let text := sub newlines3 [LF; LF] text in
      let text := sub special [] text in
      strip text
  end.

(** What [pdfplumber] gives for a file: opening it returns its pages or
    raises; [extract_text()] on a page returns a string or [None], or
    raises. *)
Definition page := outcome (option str).

Record entry := {
  filename : str;
  opened : outcome (list page)
}.

(** [os.path.join(a, b)] on a POSIX system. *)
Definition path_join (a b : str) : str :=
  if startswith b (py "/") then b
  else match a with
       | [] => b
       | _ => if endswith a (py "/") then a ++ b else a ++ py "/" ++ b
       end.

(** Lines 84-92: the loop over [enumerate(pdf.pages, 1)], which returns
    [(full_text, page_texts)]; [page_texts] is the dictionary from page
    numbers to page texts, in insertion order. *)
Fixpoint read_pages (i : N) (pages : list page) (full_text : str)
    (page_texts : list (N * str)) : outcome (str * list (N * str)) :=
  match pages with
  | [] => Return (full_text, page_texts)
  | Raise e :: _ => Raise e
  | Return None :: rest => read_pages (i + 1) rest full_text page_texts
  | Return (Some []) :: rest => read_pages (i + 1) rest full_text page_texts
  | Return (Some page_text) :: rest =>
      read_pages (i + 1) rest
        (full_text ++ [LF] ++ py "[PÁGINA " ++ Str.of_N i ++ py "]" ++ [LF]
                   ++ page_text)
        (page_texts ++ [(i, page_text)])
  end.

(** Lines 112-116: [page_num = None], then a loop whose variable is
    [page_num] itself, left by [break] at the first page whose cleaned text
    contains the article. *)
Fixpoint article_page (page_num : value) (items : list (N * str))
    (article_content : str) : value :=
  match items with
  | [] => page_num
  | (k, page_text) :: rest =>
      if contains article_content (clean_text page_text) then VInt k
      else article_page (VInt k) rest article_content
  end.

(** Lines 151-155: [page_num = None], then a loop over
    [(pnum, ptext)] that assigns [page_num = pnum] before [break]. *)
Fixpoint chunk_page (page_num : value) (items : list (N * str))
    (chunk : str) : value :=
  match items with
  | [] => page_num
  | (pnum, ptext) :: rest =>
      if contains chunk (clean_text ptext) then VInt pnum
      else chunk_page page_num rest chunk
  end.

(** Lines 110-129: one document per article. *)
Definition article_documents (base_metadata : dict)
    (page_texts : list (N * str)) (articles : list article) : list Document :=
  map (fun a =>
         let page_num := article_page VNone page_texts (content a) in
         {| page_content := content a;
            metadata := dict_update base_metadata
                          [("content_type", VStr (py "article"));
                           ("article_number", VStr (number a));
                           ("page", page_num)]%string |})
      articles.

(** Lines 139-140: the articles' contents are deleted from the text. *)
Definition remove_articles (cleaned_text : str) (articles : list article) : str :=
  fold_left (fun text a => replace text (content a) []) articles cleaned_text.

(** Lines 146-166: one document per chunk of at least 100 characters
    after trimming. *)
Definition general_documents (base_metadata : dict)
    (page_texts : list (N * str)) (chunks : list str) : list Document :=
  flat_map (fun chunk =>
              if length (strip chunk) <? 100 then []
              else
                let page_num := chunk_page VNone page_texts chunk in
                [{| page_content := chunk;
                    metadata := dict_update base_metadata
                                  [("content_type", VStr (py "general"));
                                   ("page", page_num)]%string |}])
           chunks.

Section Builder.

(** [RecursiveCharacterTextSplitter(chunk_size=1500, chunk_overlap=300,
    separators=["\n\n", "\n", ". "]).split_text] belongs to langchain and
    [str.lower] to the interpreter; both are total on strings. *)
Variable split_text : str -> list str.
Variable lower : str -> str.

(** Lines 83-166, the body of the [try]: the documents of one file.  The
    only calls that can raise are the opening of the file and the
    extraction of a page, both before any document is appended. *)
Definition process_pdf (name file_path : str) (pdf : outcome (list page))
  : outcome (list Document) :=
  match pdf with
  | Raise e => Raise e
  | Return pages =>
      match read_pages 1 pages [] [] with
      | Raise e => Raise e
      | Return (full_text, page_texts) =>
          let cleaned_text := clean_text full_text in
          let articles := extract_article_with_context cleaned_text in
          let base_metadata :=
            [("source", VStr name); ("file_path", VStr file_path)]%string in
          let article_docs := article_documents base_metadata page_texts articles in
          let cleaned_text := remove_articles cleaned_text articles in
          let chunks := split_text cleaned_text in
          Return (article_docs ++ general_documents base_metadata page_texts chunks)
      end
  end.

(** Line 76: the entries whose lowered name ends in [.pdf]. *)
Definition pdf_files (listing : list entry) : list entry :=
  filter (fun f => endswith (lower (filename f)) (py ".pdf")) listing.

(** Lines 78-170: the loop over the files, each in its own [try]. *)
Fixpoint process_files (folder_path : str) (files : list entry)
    (all_documents : list Document) : M (list Document) :=
  match files with
  | [] => ret all_documents
  | f :: rest =>
      (all_documents <-
         try_except
           (docs <- call (process_pdf (filename f)
                            (path_join folder_path (filename f)) (opened f)) ;
            ret (all_documents ++ docs))
           (fun e =>
              logger_log globals ERROR
                (py "Error processing " ++ filename f ++ py ": " ++ exn_str e) ;>
              ret all_documents) ;
       process_files folder_path rest all_documents)%monad
  end.

(** [extract_text_from_folder(folder_path)], where [listing] is what
    [os.listdir(folder_path)] returns together with what opening each
    entry gives. *)
Definition extract_text_from_folder (folder_path : str) (listing : list entry)
  : M (list Document) :=
  process_files folder_path (pdf_files listing) [].

End Builder.

End ExtractDocuments.

(* ================================================================== *)
(** * index_manager.py *)
(* ================================================================== *)

Module IndexManager.

(** Top-level names of the module, [logger] (line 15) among them. *)
Definition globals : namespace :=
  ["logging"; "List"; "Optional"; "OpenAIEmbeddings"; "FAISS"; "Document";
   "logger"; "create_index"; "update_index"; "save_index"; "load_index"]%string.

Section Engine.

(** The embedding and index engine is external.  [FAISS] is the type of
    index objects (a handle is a reference to one), and each call into the
    engine returns or raises. *)
Variable FAISS : Type.
Variable Embeddings : Type.
Variable OpenAIEmbeddings : outcome Embeddings.
Variable from_documents : list Document -> Embeddings -> outcome FAISS.
Variable add_documents : FAISS -> list Document -> outcome unit.

Definition create_index (documents : list Document) : M (option FAISS) :=
  match documents with
  | [] =>
      (logger_log globals WARNING (py "No documents provided for indexing") ;>
       ret None)%monad
  | _ =>
      try_except
        (embeddings <- call OpenAIEmbeddings ;
         index <- call (from_documents documents embeddings) ;
         ret (Some index))%monad
        (fun e =>
           logger_log globals ERROR (py "Index creation failed: " ++ exn_str e) ;>
           ret None)%monad
  end.

Definition update_index (existing_index : option FAISS)
    (new_documents : list Document) : M (option FAISS) :=
  match new_documents with
  | [] => ret existing_index
  | _ =>
      match existing_index with
      | None => create_index new_documents
      | Some index =>
          try_except
            (call (add_documents index new_documents) ;>
             ret existing_index)%monad
            (fun e =>
               logger_log globals ERROR (py "Index update failed: " ++ exn_str e) ;>
               ret existing_index)%monad
      end
  end.

End Engine.

Section Persistence.

(** [index.save_local(path)] and [FAISS.load_local(path, embeddings)] are
    calls into the engine as well. *)
Variable FAISS : Type.
Variable Embeddings : Type.
Variable OpenAIEmbeddings : outcome Embeddings.
Variable save_local : FAISS -> str -> outcome unit.
Variable load_local : str -> Embeddings -> outcome FAISS.

Definition save_index (index : option FAISS) (path : str) : M bool :=
  match index with
  | None =>
      (logger_log globals WARNING (py "Cannot save None index") ;>
       ret false)%monad
  | Some index =>
      try_except
        (call (save_local index path) ;>
         ret true)%monad
        (fun e =>
           logger_log globals ERROR (py "Index save failed: " ++ exn_str e) ;>
           ret false)%monad
  end.

Definition load_index (path : str) : M (option FAISS) :=
  try_except
    (embeddings <- call OpenAIEmbeddings ;
     index <- call (load_local path embeddings) ;
     ret (Some index))%monad
    (fun e =>
       logger_log globals ERROR (py "Index load failed: " ++ exn_str e) ;>
       ret None)%monad.

End Persistence.

End IndexManager.

(* ================================================================== *)
(** * query_handler.py *)
(* ================================================================== *)

Module QueryHandler.

(** Top-level names of the module: lines 1-6 import [os], [logging], [re],
    [List], [Dict], [Optional], [OpenAI] and [FAISS], and three functions
    are defined.  No statement binds [logger]. *)
Definition globals : namespace :=
  ["os"; "logging"; "re"; "List"; "Dict"; "Optional"; "OpenAI"; "FAISS";
   "preprocess_query"; "answer_query_with_context";
   "format_chat_history"]%string.

Section Scores.

Import PrimInt63.

(** [numpy.float32(x)] for a binary64 [x], as a binary64: [x] rounded to
    the nearest number with a 24-bit significand and an exponent of
    binary32, ties to even; below the normal range the spacing is that of
    the subnormals (2^-149), and beyond the largest binary32 the result is
    infinite.  The exponents of [frshiftexp] and [ldshiftexp] are shifted
    by 2101. *)
Definition float32 (x : float) : float :=
  if PrimFloat.eqb x 0 then x
  else
    let (_, e) := frshiftexp x in
    let up := if PrimInt63.leb e 1976 then 2250%uint63 else PrimInt63.sub 4226 e in
    let down := if PrimInt63.leb e 1976 then 1952%uint63 else PrimInt63.sub e 24 in
    let scaled := ldshiftexp (abs x) up in
    let rounded := ldshiftexp ((scaled + 0x1p52) - 0x1p52) down in
    let clipped :=
      if PrimFloat.ltb 0x1.fffffep127 rounded then infinity else rounded in
    if PrimFloat.ltb x 0 then - clipped else clipped.

End Scores.

(** A relevance score as the search hands it over.  The vector store
    computes it from a [numpy.float32] distance, so what reaches line 61 is
    a NumPy scalar: [Float32 x] stands for [numpy.float32(x)] where a Python
    float in an operation takes the array scalar's type (NumPy 2), and
    [Float64 x] for a binary64 [x]: a Python float, a [numpy.float64], or a
    [numpy.float32] of that value where the operation is carried out in
    binary64 (NumPy 1). *)
Inductive score :=
| Float64 (x : float)
| Float32 (x : float).

(** [score > literal], the literal being a Python float: a binary64
    comparison for a binary64 score; for a [numpy.float32] score the
    literal is cast to binary32 first and the comparison is one of
    binary32 numbers. *)
Definition gt (s : score) (literal : float) : bool :=
  match s with
  | Float64 x => PrimFloat.ltb literal x
  | Float32 x => PrimFloat.ltb (float32 literal) (float32 x)
  end.

(** [doc.metadata.get('content_type') == 'article'] *)
Definition is_article (doc : Document) : bool :=
  match dict_get (metadata doc) "content_type" with
  | Some v => value_eqb v (VStr (py "article"))
  | None => false
  end.

(** Lines 58-65: the two lists, filled in retrieval order. *)
Definition split_by_type (docs : list (Document * score))
  : list (Document * score) * list (Document * score) :=
  fold_left
    (fun lists p =>
       if is_article (fst p)
       then (fst lists ++ [p], snd lists)
       else (fst lists, snd lists ++ [p]))
    docs ([], []).

(** Lines 68-78: articles above 0.03 first, then the rest above 0.05. *)
Definition relevant (docs : list (Document * score)) : list Document :=
  let article_docs := fst (split_by_type docs) in
  let general_docs := snd (split_by_type docs) in
  let relevant_docs := [] in
  let relevant_docs :=
    fold_left (fun acc p => if gt (snd p) 0.03%float then acc ++ [fst p] else acc)
      article_docs relevant_docs in
  let relevant_docs :=
    fold_left (fun acc p => if gt (snd p) 0.05%float then acc ++ [fst p] else acc)
      general_docs relevant_docs in
  relevant_docs.

(** [\[Página (\d+)\]] and [\[Página \d+\]] *)
Definition page_marker_group : regex :=
  (Lit (py "[Página ") +> Group 1 (Rep (OneOf [Digit]) 1 true) +> Lit (py "]"))%re.

Definition page_marker : regex :=
  (Lit (py "[Página ") +> Rep (OneOf [Digit]) 1 true +> Lit (py "]"))%re.

(** Lines 87-96: one entry of the context. *)
Definition context_part (doc : Document) : str :=
  let source :=
    match dict_get (metadata doc) "source" with
    | Some v => v
    | None => VStr (py "Documento sin nombre")
    end in
  let page :=
    match search page_marker_group (page_content doc) with
    | Some m => ExtractDocuments.group_text 1 m
    | None => py "N/A"
    end in
  let content := page_content doc in
  let content := sub page_marker [] content in
  let content := strip content in
  py "[Fuente: " ++ value_str source ++ py " - Página " ++ page ++ py "]:"
     ++ [LF] ++ content.

(** Lines 85-98. *)
Definition docs_context (relevant_docs : list Document) : str :=
  join [LF; LF] (map context_part (firstn 10 relevant_docs)).

(** Lines 100-117. *)
Definition system_prompt : str := py "
        Eres un asistente especializado en normativa institucional. Al responder:

        1. Si encuentras información en artículos específicos:
           - Cita el número de artículo y la página
           - Proporciona el texto exacto relevante
           - Explica el contexto si es necesario

        2. Si la información involucra plazos o fechas:
           - Especifica si el plazo depende de algún evento o resolución
           - Menciona todas las condiciones relevantes
           - Indica si hay excepciones o casos especiales

        3. Para cualquier tipo de información:
           - Cita la fuente y página exacta
           - Proporciona contexto cuando sea necesario
           - Si hay ambigüedad, menciona todas las interpretaciones posibles
        ".

(** Lines 16-22. *)
Definition expansions : list (str * list str) :=
  [(py "fecha", [py "plazo"; py "cuando"]);
   (py "plazo", [py "fecha"; py "periodo"]);
   (py "requisito", [py "condicion"; py "requerimiento"]);
   (py "documento", [py "documentacion"; py "papel"]);
   (py "ayuda", [py "subvencion"; py "financiacion"])].

Fixpoint expansion_of (word : str) (table : list (str * list str)) : option (list str) :=
  match table with
  | [] => None
  | (k, v) :: table' => if Str.equal word k then Some v else expansion_of word table'
  end.

(** A set of strings, kept without repetition. *)
Definition set_add (x : str) (s : list str) : list str :=
  if existsb (Str.equal x) s then s else s ++ [x].

(** The request sent to the generation service. *)
Record request := {
  model : str;
  messages : list (str * str);
  temperature : PrimFloat.float;
  max_tokens : N
}.

Section Pipeline.

(** External to the repository: [str.lower]; the order in which a set of
    strings is iterated; the index, whose search returns scored documents
    or raises; the generation service, whose client is built by [OpenAI()]
    and whose [chat.completions.create] returns the text of the first
    choice or raises. *)
Variable lower : str -> str.
Variable set_iter : list str -> list str.
Variable FAISS : Type.
Variable similarity_search_with_relevance_scores :
  FAISS -> str -> N -> outcome (list (Document * score)).
Variable Client : Type.
Variable OpenAI : outcome Client.
Variable create : Client -> request -> outcome str.

Definition preprocess_query (query : str) : str :=
  let query := lower query in
  let query := sub (One (NoneOf [Word; Space])) [] query in
  let expanded_terms := [query] in
  let words := split query in
  let expanded_terms :=
    fold_left
      (fun terms word =>
         match expansion_of word expansions with
         | Some l => fold_left (fun acc x => set_add x acc) l terms
         | None => terms
         end)
      words expanded_terms in
  join [SP] (set_iter expanded_terms).

(** Lines 45-132, the body of the [try]. *)
Definition answer_body (query : str) (index : option FAISS) : M str :=
  match index with
  | None => ret (py "La base de conocimiento no está disponible.")
  | Some index =>
      let processed_query := preprocess_query query in
      (docs <- call (similarity_search_with_relevance_scores index processed_query 20) ;
       match docs with
       | [] =>
           ret (py "No encontré información relevante para tu pregunta. "
                   ++ py "¿Podrías reformularla?")
       | _ =>
           let relevant_docs := relevant docs in
           match relevant_docs with
           | [] =>
               ret (py "No encontré información suficientemente relevante. "
                       ++ py "¿Podrías reformular tu pregunta?")
           | _ =>
               let docs_context := docs_context relevant_docs in
               client <- call OpenAI ;
               let messages :=
                 [(py "system", system_prompt);
                  (py "user",
                   py "Contexto:" ++ [LF] ++ docs_context ++ [LF; LF]
                      ++ py "Pregunta: " ++ query)] in
               response <- call (create client
                                   {| model := py "gpt-4"; messages := messages;
                                      temperature := 0.2%float; max_tokens := 800 |}) ;
               ret response
           end
       end)%monad
  end.

(** Lines 44-136.  The handler calls [logger.error] in this module's
    namespace before it builds the message. *)
Definition answer_query_with_context (query : str) (index : option FAISS)
    (chat_history : list (str * str)) : M str :=
  try_except
    (answer_body query index)
    (fun e =>
       logger_log globals ERROR (py "Error processing query: " ++ exn_str e) ;>
       ret (py "Lo siento, ocurrió un error al procesar tu consulta: " ++ exn_str e))%monad.

End Pipeline.

(** [d[k]]: a missing key raises [KeyError]. *)
Definition dict_item (d : dict) (k : String.string) : outcome value :=
  match dict_get d k with
  | Some v => Return v
  | None => Raise (Exception "KeyError" (py "'" ++ py k ++ py "'"))
  end.

(** [l[k:]] for an integer [k]: a negative [k] counts from the end. *)
Definition slice_from (A : Type) (k : Z) (l : list A) : list A :=
  if (k <? 0)%Z
  then skipn (Z.to_nat (Z.max 0 (Z.of_nat (length l) + k))) l
  else skipn (Z.to_nat k) l.

(** Lines 148-150: the loop that fills [formatted]. *)
Fixpoint format_messages (msgs : list dict) (formatted : list str)
  : outcome (list str) :=
  match msgs with
  | [] => Return formatted
  | msg :: rest =>
      match dict_item msg "role" with
      | Raise e => Raise e
      | Return r =>
          let role :=
            if value_eqb r (VStr (py "user")) then py "Usuario"
            else py "Asistente" in
          match dict_item msg "content" with
          | Raise e => Raise e
          | Return c =>
              format_messages rest (formatted ++ [role ++ py ": " ++ value_str c])
          end
      end
  end.

(** Lines 138-152; [max_history] defaults to 5. *)
Definition format_chat_history (chat_history : list dict) (max_history : Z)
  : outcome str :=
  let recent_history := slice_from (- max_history * 2)%Z chat_history in
  match format_messages recent_history [] with
  | Raise e => Raise e
  | Return formatted => Return (join [LF] formatted)
  end.

End QueryHandler.

(* ================================================================== *)
(** * main.py: loading the documents and initialising the index *)
(* ================================================================== *)

Module Main.

(** Lines 18-19. *)
Definition FOLDER_PATH : str := py "convocatorias".
Definition INDEX_PATH : str := py "faiss_index".

(** What the file system holds at [FOLDER_PATH]: nothing, or something
    whose listing by [os.listdir] returns its entries or raises. *)
Inductive folder :=
| Missing
| Present (listing : outcome (list ExtractDocuments.entry)).

Section App.

Variable split_text : str -> list str.
Variable lower : str -> str.
Variable FAISS : Type.
Variable Embeddings : Type.
Variable OpenAIEmbeddings : outcome Embeddings.
Variable from_documents : list Document -> Embeddings -> outcome FAISS.
Variable save_local : FAISS -> str -> outcome unit.
Variable load_local : str -> Embeddings -> outcome FAISS.

(** The state of the disk when the application starts:
    [os.path.exists(INDEX_PATH)], what is at [FOLDER_PATH], and what
    [os.makedirs(FOLDER_PATH)] does. *)
Variable index_exists : bool.
Variable documents_folder : folder.
Variable makedirs : outcome unit.

(** Lines 30-34.  A folder that has just been created is empty. *)
Definition load_documents : M (list Document) :=
  match documents_folder with
  | Missing =>
      (call makedirs ;>
       ExtractDocuments.extract_text_from_folder split_text lower FOLDER_PATH [])%monad
  | Present listing =>
      (entries <- call listing ;
       ExtractDocuments.extract_text_from_folder split_text lower FOLDER_PATH entries)%monad
  end.

(** Lines 36-49. *)
Definition initialize_index : M (option FAISS) :=
  (loaded <-
     (if index_exists
      then IndexManager.load_index OpenAIEmbeddings load_local INDEX_PATH
      else ret None) ;
   match loaded with
   | Some index => ret (Some index)
   | None =>
       documents <- load_documents ;
       match documents with
       | [] => ret None
       | _ =>
           index <- IndexManager.create_index OpenAIEmbeddings from_documents documents ;
           match index with
           | Some i =>
               IndexManager.save_index save_local (Some i) INDEX_PATH ;>
               ret (Some i)
           | None => ret None
           end
       end
   end)%monad.

End App.

End Main.

(* ================================================================== *)
(** * Properties of the retrieval filter (query_handler.py, lines 57-82) *)
(* ================================================================== *)

Section FilterAndRank.

Import QueryHandler.

Lemma fold_append_filter (A B : Type) (keep : A -> bool) (f : A -> B) :
  forall (l : list A) (acc : list B),
    fold_left (fun acc p => if keep p then acc ++ [f p] else acc) l acc
    = acc ++ map f (filter keep l).
Proof.
  induction l as [|p l IH]; intros acc; cbn [fold_left filter map].
  - now rewrite app_nil_r.
  - rewrite IH. destruct (keep p); cbn [map].
    + now rewrite <- app_assoc.
    + reflexivity.
Qed.

Lemma split_by_type_from :
  forall (docs arts gens : list (Document * score)),
    fold_left
      (fun lists p =>
         if is_article (fst p)
         then (fst lists ++ [p], snd lists)
         else (fst lists, snd lists ++ [p]))
      docs (arts, gens)
    = (arts ++ filter (fun p => is_article (fst p)) docs,
       gens ++ filter (fun p => negb (is_article (fst p))) docs).
Proof.
  induction docs as [|p docs IH]; intros arts gens; cbn [fold_left filter].
  - now rewrite !app_nil_r.
  - destruct (is_article (fst p)); cbn [fst snd negb]; rewrite IH;
      now rewrite <- app_assoc.
Qed.

Lemma split_by_type_filter :
  forall docs : list (Document * score),
    split_by_type docs
    = (filter (fun p => is_article (fst p)) docs,
       filter (fun p => negb (is_article (fst p))) docs).
Proof. intros docs. unfold split_by_type. now rewrite split_by_type_from. Qed.

Lemma filter_filter (A : Type) (p q : A -> bool) :
  forall l, filter q (filter p l) = filter (fun x => p x && q x) l.
Proof.
  induction l as [|x l IH]; cbn [filter]; [reflexivity|].
  destruct (p x); cbn [filter andb]; [destruct (q x)|]; now rewrite IH.
Qed.

(** The two-tier filter as a pair of filters over the retrieved list. *)
Lemma relevant_as_filters :
  forall docs : list (Document * score),
    relevant docs
    = map fst (filter (fun p => is_article (fst p) && gt (snd p) 0.03%float) docs)
      ++ map fst (filter (fun p => negb (is_article (fst p)) && gt (snd p) 0.05%float) docs).
Proof.
  intros docs. unfold relevant. rewrite split_by_type_filter. cbn [fst snd].
  rewrite (fold_append_filter
             (fun p : Document * score => gt (snd p) 0.03%float) (@fst _ _)).
  rewrite (fold_append_filter
             (fun p : Document * score => gt (snd p) 0.05%float) (@fst _ _)).
  cbn [app]. now rewrite !filter_filter.
Qed.


(** What [score > 0.03] and [score > 0.05] compare.  A binary64 score is
    compared with the literal itself; a [numpy.float32] score with the
    literal cast to binary32, which is below 0.03 for the one and above 0.05
    for the other: a binary32 score equal to [numpy.float32(0.05)] is not
    above the threshold, though the same number held as a binary64 is. *)
Lemma gt_thresholds :
  (forall x, gt (Float64 x) 0.03 = PrimFloat.ltb 0.03 x)
  /\ (forall x, gt (Float64 x) 0.05 = PrimFloat.ltb 0.05 x)
  /\ (forall x, gt (Float32 x) 0.03 = PrimFloat.ltb 0x1.eb851ep-6 (float32 x))
  /\ (forall x, gt (Float32 x) 0.05 = PrimFloat.ltb 0x1.99999ap-5 (float32 x))
  /\ gt (Float32 0.05) 0.05 = false
  /\ gt (Float64 (float32 0.05)) 0.05 = true.
Proof.
  assert (H3 : float32 0.03 = 0x1.eb851ep-6%float) by (vm_compute; reflexivity).
  assert (H5 : float32 0.05 = 0x1.99999ap-5%float) by (vm_compute; reflexivity).
  repeat split; intros; cbn [gt]; rewrite ?H3, ?H5; try reflexivity;
    vm_compute; reflexivity.
Qed.


End FilterAndRank.

(* ================================================================== *)
(** * Properties of the article segmenter (extract_documents.py, lines 19-35) *)
(* ================================================================== *)

Section Segmenter.

Import ExtractDocuments.

(** C6.  The text "Artículo 7. Body text. Artículo 8. More text." is
    segmented into exactly two units, in document order, numbered "7" and
    "8"; their contents start with "Artículo 7." and "Artículo 8."; and the
    first unit stops before the second article's marker. *)
Theorem two_articles_segmented :
  let units :=
    extract_article_with_context
      (py "Artículo 7. Body text. Artículo 8. More text.") in
  units = [ {| number := py "7"; content := py "Artículo 7. Body text." |};
            {| number := py "8"; content := py "Artículo 8. More text." |} ]
  /\ map number units = [py "7"; py "8"]
  /\ Forall2 (fun a heading => startswith (content a) heading = true)
       units [py "Artículo 7."; py "Artículo 8."]
  /\ match units with
     | first :: _ =>
         contains (py "Artículo 8") (content first) = false
         /\ contains (py "More text") (content first) = false
     | [] => False
     end.
Proof.
  vm_compute. repeat split; repeat constructor.
Qed.

(** A text in which a word does not occur has no suffix starting with it. *)
Lemma contains_cons_false (w : str) (c : char) (s : str) :
  contains w (c :: s) = false ->
  startswith (c :: s) w = false /\ contains w s = false.
Proof.
  cbn [contains]. intros H. apply orb_false_iff in H. exact H.
Qed.

Lemma contains_nil_false (w : str) :
  contains w [] = false -> startswith [] w = false.
Proof.
  cbn [contains]. intros H. apply orb_false_iff in H. tauto.
Qed.

Lemma contains_false_startswith (w s : str) :
  contains w s = false -> startswith s w = false.
Proof.
  destruct s as [|c s]; intros H.
  - now apply contains_nil_false.
  - now apply contains_cons_false in H.
Qed.






End Segmenter.

(* ================================================================== *)
(** * Properties of the document builder (extract_documents.py, lines 71-173) *)
(* ================================================================== *)

Section DictFacts.

Lemma dict_get_set_same (d : dict) (k : String.string) (v : value) :
  dict_get (dict_set d k v) k = Some v.
Proof.
  induction d as [|[k' v'] d IH]; cbn [dict_set dict_get].
  - now rewrite String.eqb_refl.
  - destruct (String.eqb k k') eqn:E; cbn [dict_get]; rewrite E; auto.
Qed.

Lemma dict_get_set_other (d : dict) (k k' : String.string) (v : value) :
  String.eqb k' k = false ->
  dict_get (dict_set d k v) k' = dict_get d k'.
Proof.
  intros Hk. induction d as [|[k0 v0] d IH]; cbn [dict_set dict_get].
  - now rewrite Hk.
  - destruct (String.eqb k k0) eqn:E; cbn [dict_get].
    + apply String.eqb_eq in E. subst k0. now rewrite Hk.
    + now rewrite IH.
Qed.

End DictFacts.

Section StripFacts.

Lemma lstrip_suffix (s : str) : exists w, s = w ++ lstrip s.
Proof.
  induction s as [|c s [w IH]]; cbn [lstrip].
  - now exists [].
  - destruct (Unicode.isspace c).
    + exists (c :: w). cbn [app]. now rewrite <- IH.
    + now exists [].
Qed.

Lemma rstrip_prefix (s : str) : exists w, s = rstrip s ++ w.
Proof.
  unfold rstrip. destruct (lstrip_suffix (rev s)) as [w Hw].
  exists (rev w). rewrite <- rev_app_distr, <- Hw. now rewrite rev_involutive.
Qed.

(** [strip] keeps a contiguous part of the string. *)
Lemma strip_factor (s : str) : exists u v, s = u ++ strip s ++ v.
Proof.
  unfold strip. destruct (lstrip_suffix s) as [u Hu].
  destruct (rstrip_prefix (lstrip s)) as [v Hv].
  exists u, v. now rewrite <- Hv.
Qed.

Lemma strip_length (s : str) : length (strip s) <= length s.
Proof.
  destruct (strip_factor s) as [u [v H]].
  rewrite H at 2. rewrite !length_app. lia.
Qed.

End StripFacts.

Section BuilderProperties.

Import ExtractDocuments.

Variable split_text : str -> list str.
Variable lower : str -> str.
Variable folder_path : str.

(** What the body of the [try] gives for one file. *)
Definition file_result (f : entry) : outcome (list Document) :=
  process_pdf split_text (filename f) (path_join folder_path (filename f)) (opened f).

(** The documents a file contributes, none when its processing raises. *)
Definition file_documents (f : entry) : list Document :=
  match file_result f with
  | Return docs => docs
  | Raise _ => []
  end.

(** The record logged for a file, one at level ERROR when its processing
    raises. *)
Definition file_errors (f : entry) : list log_record :=
  match file_result f with
  | Return _ => []
  | Raise e =>
      [{| record_level := ERROR;
          record_text := py "Error processing " ++ filename f ++ py ": " ++ exn_str e |}]
  end.

Lemma process_files_spec :
  forall files all_documents log,
    process_files split_text folder_path files all_documents log
    = (Return (all_documents ++ flat_map file_documents files),
       log ++ flat_map file_errors files).
Proof.
  induction files as [|f files IH]; intros all_documents log.
  - cbn [process_files flat_map]. unfold ret. now rewrite !app_nil_r.
  - cbn [process_files flat_map]. unfold bind at 1.
    unfold try_except, bind, call, ret, file_documents, file_errors, file_result.
    destruct (process_pdf split_text (filename f)
                (path_join folder_path (filename f)) (opened f)) as [docs|e].
    + rewrite IH. cbn [app]. now rewrite <- app_assoc.
    + unfold logger_log. cbn [bound globals existsb String.eqb Ascii.eqb Bool.eqb orb].
      rewrite IH. cbn [app]. now rewrite <- app_assoc.
Qed.

Lemma read_pages_raises :
  forall pages i full_text page_texts e,
    In (Raise e) pages ->
    exists e', read_pages i pages full_text page_texts = Raise e'.
Proof.
  induction pages as [|p pages IH]; intros i full_text page_texts e Hin.
  - destruct Hin.
  - destruct Hin as [Hp|Hin].
    + subst p. cbn [read_pages]. eauto.
    + cbn [read_pages]. destruct p as [[[|c t]|]|e0]; eauto.
Qed.


Lemma article_documents_type (base : dict) (page_texts : list (N * str))
    (articles : list article) (d : Document) :
  In d (article_documents base page_texts articles) ->
  dict_get (metadata d) "content_type" = Some (VStr (py "article")).
Proof.
  unfold article_documents. intros Hin. apply in_map_iff in Hin.
  destruct Hin as [a [Hd _]]. subst d. cbn [metadata dict_update fold_left fst snd].
  rewrite dict_get_set_other by reflexivity.
  rewrite dict_get_set_other by reflexivity.
  apply dict_get_set_same.
Qed.

Lemma general_documents_length (base : dict) (page_texts : list (N * str))
    (chunks : list str) (d : Document) :
  In d (general_documents base page_texts chunks) ->
  100 <= length (strip (page_content d)).
Proof.
  unfold general_documents. intros Hin. apply in_flat_map in Hin.
  destruct Hin as [chunk [_ Hd]].
  destruct (length (strip chunk) <? 100) eqn:E; [destruct Hd|].
  destruct Hd as [Hd|[]]. subst d. cbn [page_content].
  apply Nat.ltb_ge in E. exact E.
Qed.

Lemma file_documents_cases (f : entry) (d : Document) :
  In d (file_documents f) ->
  dict_get (metadata d) "content_type" = Some (VStr (py "article"))
  \/ 100 <= length (strip (page_content d)).
Proof.
  unfold file_documents, file_result, process_pdf.
  destruct (opened f) as [pages|e]; [|intros []].
  destruct (read_pages 1 pages [] []) as [[full_text page_texts]|e]; [|intros []].
  intros Hin. apply in_app_or in Hin. destruct Hin as [Hin|Hin].
  - left. eapply article_documents_type; eauto.
  - right. eapply general_documents_length; eauto.
Qed.

(** C7.  Whatever the splitter returns, the builder returns, and every
    document of type general that it stores has at least 100 characters
    after trimming, hence at least 100 characters. *)
Theorem general_units_have_100_characters :
  forall (listing : list entry) (log : list log_record),
  exists docs log',
    extract_text_from_folder split_text lower folder_path listing log
    = (Return docs, log')
    /\ forall d,
         In d docs ->
         dict_get (metadata d) "content_type" = Some (VStr (py "general")) ->
         100 <= length (strip (page_content d))
         /\ 100 <= length (page_content d).
Proof.
  intros listing log. unfold extract_text_from_folder.
  rewrite process_files_spec. cbn [app].
  eexists. eexists. split; [reflexivity|].
  intros d Hin Hty. apply in_flat_map in Hin. destruct Hin as [f [_ Hin]].
  apply file_documents_cases in Hin. destruct Hin as [Hart|Hlen].
  - rewrite Hart in Hty. exfalso. vm_compute in Hty. discriminate.
  - split; [exact Hlen|]. pose proof (strip_length (page_content d)). lia.
Qed.

Lemma all_failing_no_documents (files : list entry) :
  (forall f, In f files -> exists e, file_result f = Raise e) ->
  flat_map file_documents files = [].
Proof.
  induction files as [|f files IH]; intros Hall; [reflexivity|].
  cbn [flat_map]. rewrite IH by (intros; apply Hall; now right).
  destruct (Hall f (or_introl eq_refl)) as [e He].
  unfold file_documents. now rewrite He.
Qed.

(** C8.  Each PDF is processed on its own: the result is the
    concatenation, in listing order, of what each file contributes, and a
    file whose opening or page extraction raises contributes nothing but
    one ERROR record, the loop going on with the next file; the call never
    raises; with no PDF in the folder, or with every PDF failing, the
    result is empty. *)
Theorem files_processed_independently :
  forall (listing : list entry) (log : list log_record),
    let files := pdf_files lower listing in
    let run := extract_text_from_folder split_text lower folder_path listing log in
    run = (Return (flat_map file_documents files),
           log ++ flat_map file_errors files)
    /\ (forall f e,
          opened f = Raise e ->
          file_documents f = []
          /\ file_errors f
             = [{| record_level := ERROR;
                   record_text := py "Error processing " ++ filename f
                                     ++ py ": " ++ exn_str e |}])
    /\ (forall f pages e,
          opened f = Return pages -> In (Raise e) pages ->
          file_documents f = []
          /\ exists e',
               file_errors f
               = [{| record_level := ERROR;
                     record_text := py "Error processing " ++ filename f
                                       ++ py ": " ++ exn_str e' |}])
    /\ (files = [] -> run = (Return [], log))
    /\ ((forall f, In f files -> exists e, file_result f = Raise e) ->
        fst run = Return []).
Proof.
  intros listing log files run.
  assert (Hrun : run = (Return (flat_map file_documents files),
                        log ++ flat_map file_errors files)).
  { unfold run, extract_text_from_folder. now rewrite process_files_spec. }
  split; [exact Hrun|]. split; [|split; [|split]].
  - intros f e Hf. unfold file_documents, file_errors, file_result, process_pdf.
    rewrite Hf. auto.
  - intros f pages e Hf Hin.
    destruct (@read_pages_raises pages 1%N [] [] e Hin) as [e' He'].
    unfold file_documents, file_errors, file_result, process_pdf.
    rewrite Hf, He'. eauto.
  - intros Hnil. rewrite Hrun, Hnil. cbn [flat_map]. now rewrite app_nil_r.
  - intros Hall. rewrite Hrun. cbn [fst]. f_equal.
    now apply all_failing_no_documents.
Qed.

End BuilderProperties.

(** A folder with a text file, a corrupt PDF, a PDF whose second page
    cannot be read and a PDF without text yields no document and two ERROR
    records. *)
Lemma files_processed_independently_witness :
  let listing :=
    [ {| ExtractDocuments.filename := py "notas.txt";
         ExtractDocuments.opened := Return [] |};
      {| ExtractDocuments.filename := py "roto.PDF";
         ExtractDocuments.opened := Raise (Exception "PDFSyntaxError" (py "No /Root object!")) |};
      {| ExtractDocuments.filename := py "medio.pdf";
         ExtractDocuments.opened :=
           Return [Return (Some (py "Texto")); Raise (Exception "ValueError" (py "bad page"))] |};
      {| ExtractDocuments.filename := py "vacio.pdf";
         ExtractDocuments.opened := Return [Return None] |} ] in
  ExtractDocuments.extract_text_from_folder
    (fun text => [text]) (map (fun c => if (65 <=? c)%N && (c <=? 90)%N then (c + 32)%N else c))
    (py "convocatorias") listing []
  = (Return [],
     [ {| record_level := ERROR;
          record_text := py "Error processing roto.PDF: No /Root object!" |};
       {| record_level := ERROR;
          record_text := py "Error processing medio.pdf: bad page" |} ]).
Proof.
  intros listing.
  pose proof (files_processed_independently
                (fun text => [text])
                (map (fun c => if (65 <=? c)%N && (c <=? 90)%N then (c + 32)%N else c))
                (py "convocatorias") listing []) as H.
  destruct H as [H _]. rewrite H. vm_compute. reflexivity.
Defined.

(* ================================================================== *)
(** * Page attribution (extract_documents.py, lines 110-123 and 150-155) *)
(* ================================================================== *)

Section PageAttribution.

Import ExtractDocuments.

(** After the loop of lines 114-116 has run over every page without
    [break], its variable holds the last page number. *)
Lemma article_page_miss :
  forall (items : list (N * str)) (article_content : str) (page_num : value),
    (forall k t, In (k, t) items ->
                 contains article_content (clean_text t) = false) ->
    article_page page_num items article_content
    = match items with
      | [] => page_num
      | _ :: _ => VInt (fst (last items (0%N, [])))
      end.
Proof.
  induction items as [|[k t] items IH]; intros article_content page_num Hmiss.
  - reflexivity.
  - cbn [article_page]. rewrite (Hmiss k t) by now left.
    rewrite IH by (intros; eapply Hmiss; right; eassumption).
    destruct items as [|p items]; reflexivity.
Qed.

(** The loop of lines 152-155 leaves [page_num] alone until a page contains
    the chunk. *)
Lemma chunk_page_miss :
  forall (items : list (N * str)) (chunk : str) (page_num : value),
    (forall k t, In (k, t) items -> contains chunk (clean_text t) = false) ->
    chunk_page page_num items chunk = page_num.
Proof.
  induction items as [|[k t] items IH]; intros chunk page_num Hmiss.
  - reflexivity.
  - cbn [chunk_page]. rewrite (Hmiss k t) by now left.
    apply IH. intros; eapply Hmiss; right; eassumption.
Qed.

(** C3 does not hold of the code.  When at least one page has text and no
    page's cleaned text contains the article's content, the article's
    document carries the number of the last page with text, not [None]. *)
Theorem unattributed_article_gets_last_page :
  forall (base : dict) (page_texts : list (N * str)) (articles : list article)
         (a : article),
    In a articles ->
    page_texts <> [] ->
    (forall k t, In (k, t) page_texts ->
                 contains (content a) (clean_text t) = false) ->
    exists d,
      In d (article_documents base page_texts articles)
      /\ page_content d = content a
      /\ dict_get (metadata d) "page"
         = Some (VInt (fst (last page_texts (0%N, [])))).
Proof.
  intros base page_texts articles a Hin Hne Hmiss.
  eexists. split; [|split].
  - unfold article_documents. apply in_map_iff. exists a. split; [reflexivity|exact Hin].
  - reflexivity.
  - cbn [metadata dict_update fold_left fst snd].
    rewrite dict_get_set_same. rewrite article_page_miss by exact Hmiss.
    destruct page_texts as [|p rest]; [now destruct Hne|reflexivity].
Qed.

(** A one-page file whose page reads "Art. 5. Plazo de diez días.": the
    article's content is rebuilt as "Artículo 5. Plazo de diez días.", which
    the page's text does not contain, and the document is given page 1. *)
Lemma unattributed_article_gets_last_page_witness :
  exists d,
    In d (article_documents
            [("source", VStr (py "bases.pdf"));
             ("file_path", VStr (py "convocatorias/bases.pdf"))]%string
            [(1%N, py "Art. 5. Plazo de diez días.")]
            (extract_article_with_context
               (clean_text ([LF] ++ py "[PÁGINA 1]" ++ [LF]
                                 ++ py "Art. 5. Plazo de diez días."))))
    /\ page_content d = py "Artículo 5. Plazo de diez días."
    /\ dict_get (metadata d) "page" = Some (VInt 1).
Proof.
  destruct (@unattributed_article_gets_last_page
              [("source", VStr (py "bases.pdf"));
               ("file_path", VStr (py "convocatorias/bases.pdf"))]%string
              [(1%N, py "Art. 5. Plazo de diez días.")]
              (extract_article_with_context
                 (clean_text ([LF] ++ py "[PÁGINA 1]" ++ [LF]
                                   ++ py "Art. 5. Plazo de diez días.")))
              {| number := py "5"; content := py "Artículo 5. Plazo de diez días." |})
    as [d [Hin [Hcontent Hpage]]].
  - vm_compute. left. reflexivity.
  - intros H. inversion H.
  - intros k t [H|[]]. apply pair_equal_spec in H. destruct H as [_ <-].
    vm_compute. reflexivity.
  - exists d. split; [exact Hin|]. split.
    + rewrite Hcontent. vm_compute. reflexivity.
    + rewrite Hpage. vm_compute. reflexivity.
Defined.

End PageAttribution.

(* ================================================================== *)
(** * Context assembly (query_handler.py, lines 84-98) *)
(* ================================================================== *)

Section ContextAssembly.

Import ExtractDocuments QueryHandler.

(** C9 does not hold of the code.  The builder writes each page's marker
    as "[PÁGINA i]" and the normaliser deletes its brackets, while the
    context assembly strips tokens of the form "[Página i]" only.  For a
    file of two pages, "Artículo 1. Hola" and "mundo", and whatever the
    splitter returns: the first document built is the article, its content
    holds the marker of page 2, and the context assembled from it still
    holds that marker, under a header that reports no page. *)
Theorem builder_page_marker_not_stripped :
  forall split_text : str -> list str,
  exists doc rest,
    process_pdf split_text (py "bases.pdf") (py "convocatorias/bases.pdf")
      (Return [Return (Some (py "Artículo 1. Hola")); Return (Some (py "mundo"))])
    = Return (doc :: rest)
    /\ page_content doc
       = py "Artículo 1. Hola" ++ [LF] ++ py "PÁGINA 2" ++ [LF] ++ py "mundo"
    /\ docs_context [doc]
       = py "[Fuente: bases.pdf - Página N/A]:" ++ [LF]
            ++ py "Artículo 1. Hola" ++ [LF] ++ py "PÁGINA 2" ++ [LF] ++ py "mundo"
    /\ contains (py "PÁGINA 2") (docs_context [doc]) = true.
Proof.
  intros split_text.
  exists {| page_content :=
              py "Artículo 1. Hola" ++ [LF] ++ py "PÁGINA 2" ++ [LF] ++ py "mundo";
            metadata :=
              [("source", VStr (py "bases.pdf"));
               ("file_path", VStr (py "convocatorias/bases.pdf"));
               ("content_type", VStr (py "article"));
               ("article_number", VStr (py "1"));
               ("page", VInt 2)]%string |}.
  eexists. split; [|split; [|split]].
  - vm_compute. reflexivity.
  - vm_compute. reflexivity.
  - vm_compute. reflexivity.
  - vm_compute. reflexivity.
Qed.

End ContextAssembly.

(* ================================================================== *)
(** * The answer operation (query_handler.py, lines 36-136) *)
(* ================================================================== *)

Section AnswerOperation.

Import QueryHandler.

Variable lower : str -> str.
Variable set_iter : list str -> list str.
Variable FAISS : Type.
Variable similarity_search : FAISS -> str -> N -> outcome (list (Document * score)).
Variable Client : Type.
Variable OpenAI : outcome Client.
Variable create : Client -> request -> outcome str.

Let body := answer_body lower set_iter similarity_search OpenAI create.
Let answer := answer_query_with_context lower set_iter similarity_search OpenAI create.

(** [logger] is not bound in query_handler.py. *)
Lemma logger_unbound : bound globals "logger" = false.
Proof. reflexivity. Qed.

(** Without a failure the answer is the body's. *)
Lemma answer_of_success (query : str) (index : option FAISS)
    (chat_history : list (str * str)) (log log' : list log_record) (text : str) :
  body query index log = (Return text, log') ->
  answer query index chat_history log = (Return text, log').
Proof.
  intros H. unfold answer, answer_query_with_context, try_except.
  fold body. now rewrite H.
Qed.

(** C2 does not hold of the code.  Whenever something raises inside the
    [try] (the retrieval, the construction of the client or the generation
    call), the handler's first statement evaluates the unbound name
    [logger]: the operation raises [NameError] to its caller and returns no
    error string. *)
Theorem failure_escapes_as_NameError :
  forall (query : str) (index : option FAISS) (chat_history : list (str * str))
         (log log' : list log_record) (e : exn),
    body query index log = (Raise e, log') ->
    answer query index chat_history log = (Raise (name_error "logger"), log').
Proof.
  intros query index chat_history log log' e H.
  unfold answer, answer_query_with_context, try_except. fold body. rewrite H.
  unfold bind, logger_log. now rewrite logger_unbound.
Qed.

End AnswerOperation.

(** A query whose retrieval succeeds with one relevant article and whose
    generation call fails with a connection error. *)
Lemma failure_escapes_as_NameError_witness :
  QueryHandler.answer_query_with_context
    (fun s => s) (fun terms => terms)
    (fun (_ : unit) _ _ =>
       Return [({| page_content := py "Artículo 21. Plazo de diez días.";
                   metadata := [("source", VStr (py "bases.pdf"));
                                ("content_type", VStr (py "article"))]%string |},
                QueryHandler.Float32 0.9)])
    (Return tt)
    (fun (_ : unit) _ => Raise (Exception "APIConnectionError" (py "Connection error.")))
    (py "plazo") (Some tt) [] []
  = (Raise (Exception "NameError" (py "name 'logger' is not defined")), []).
Proof.
  apply failure_escapes_as_NameError
    with (e := Exception "APIConnectionError" (py "Connection error.")).
  vm_compute. reflexivity.
Defined.

(* ================================================================== *)
(** * Index construction and update (index_manager.py, lines 17-55) *)
(* ================================================================== *)

Section IndexHandles.

Import IndexManager.

Variable FAISS : Type.
Variable Embeddings : Type.
Variable OpenAIEmbeddings : outcome Embeddings.
Variable from_documents : list Document -> Embeddings -> outcome FAISS.
Variable add_documents : FAISS -> list Document -> outcome unit.

Let create := create_index OpenAIEmbeddings from_documents.
Let update := update_index OpenAIEmbeddings from_documents add_documents.

(** What the engine answers when asked to build an index. *)
Definition engine_build (documents : list Document) : outcome FAISS :=
  match OpenAIEmbeddings with
  | Return embeddings => from_documents documents embeddings
  | Raise e => Raise e
  end.

Lemma logger_bound : bound globals "logger" = true.
Proof. reflexivity. Qed.

Lemma create_index_cases (documents : list Document) (log : list log_record) :
  documents <> [] ->
  create documents log
  = match engine_build documents with
    | Return index => (Return (Some index), log)
    | Raise e =>
        (Return None,
         log ++ [{| record_level := ERROR;
                    record_text := py "Index creation failed: " ++ exn_str e |}])
    end.
Proof.
  intros Hne. destruct documents as [|d documents]; [now destruct Hne|].
  unfold create, create_index, engine_build, try_except, bind, call, ret.
  destruct OpenAIEmbeddings as [embeddings|e].
  - destruct (from_documents (d :: documents) embeddings) as [index|e].
    + reflexivity.
    + unfold logger_log. now rewrite logger_bound.
  - unfold logger_log. now rewrite logger_bound.
Qed.

Lemma create_index_returns (documents : list Document) (log : list log_record) :
  exists handle log', create documents log = (Return handle, log').
Proof.
  destruct documents as [|d documents].
  - unfold create, create_index, bind, logger_log, ret.
    rewrite logger_bound. eauto.
  - rewrite create_index_cases by discriminate.
    destruct (engine_build (d :: documents)); eauto.
Qed.

(** C10.  Neither call raises.  On a non-empty list for which the engine
    fails, [create_index] returns [None]; when adding documents to an
    existing index fails, [update_index] returns that index. *)
Theorem index_calls_never_raise :
  (forall documents log,
     exists handle log', create documents log = (Return handle, log'))
  /\ (forall documents log e,
        documents <> [] ->
        engine_build documents = Raise e ->
        create documents log
        = (Return None,
           log ++ [{| record_level := ERROR;
                      record_text := py "Index creation failed: " ++ exn_str e |}]))
  /\ (forall existing_index new_documents log,
        exists handle log',
          update existing_index new_documents log = (Return handle, log'))
  /\ (forall index new_documents log e,
        new_documents <> [] ->
        add_documents index new_documents = Raise e ->
        update (Some index) new_documents log
        = (Return (Some index),
           log ++ [{| record_level := ERROR;
                      record_text := py "Index update failed: " ++ exn_str e |}])).
Proof.
  split; [|split; [|split]].
  - apply create_index_returns.
  - intros documents log e Hne He. rewrite create_index_cases by exact Hne.
    now rewrite He.
  - intros existing_index new_documents log.
    destruct new_documents as [|d new_documents].
    + unfold update, update_index, ret. eauto.
    + destruct existing_index as [index|].
      * unfold update, update_index, try_except, bind, call, ret.
        destruct (add_documents index (d :: new_documents)) as [[]|e]; [eauto|].
        unfold logger_log. rewrite logger_bound. eauto.
      * apply (create_index_returns (d :: new_documents)).
  - intros index new_documents log e Hne He.
    destruct new_documents as [|d new_documents]; [now destruct Hne|].
    unfold update, update_index, try_except, bind, call, ret. rewrite He.
    unfold logger_log. now rewrite logger_bound.
Qed.

End IndexHandles.

(* ================================================================== *)
(** * Properties of the text normaliser (extract_documents.py, lines 37-54) *)
(* ================================================================== *)

(** ** Substitution, one position at a time *)

Section Substitution.

Variable r : regex.
Variable repl : str.

(** Where the pattern does not match, the scan moves one character on. *)
Lemma rebuild_scan_skip (fuel : nat) (c : char) (t : str) (nonempty : bool) :
  match_at r (c :: t) nonempty = None ->
  rebuild repl (scan fuel r (c :: t) nonempty) (c :: t)
  = c :: rebuild repl (scan fuel r t false) t.
Proof.
  intros Hm. destruct fuel as [|fuel]; [reflexivity|].
  cbn [scan search_from]. rewrite Hm.
  destruct (search_from r t false) as [m|]; reflexivity.
Qed.

(** Where it matches, the replacement is written and the scan resumes
    after the match. *)
Lemma rebuild_scan_hit (fuel : nat) (s s' : str) (g : groups) (nonempty : bool) :
  match_at r s nonempty = Some (s', g) ->
  rebuild repl (scan (S fuel) r s nonempty) s
  = repl ++ rebuild repl
              (scan fuel r s' (match consumed s s' with [] => true | _ => false end))
              s'.
Proof.
  intros Hm. cbn [scan]. destruct s as [|c t]; cbn [search_from]; rewrite Hm;
    reflexivity.
Qed.

Lemma rebuild_scan_end (fuel : nat) (nonempty : bool) :
  match_at r [] nonempty = None ->
  rebuild repl (scan fuel r [] nonempty) [] = [].
Proof.
  intros Hm. destruct fuel as [|fuel]; [reflexivity|].
  cbn [scan search_from]. now rewrite Hm.
Qed.

End Substitution.

(** ** Deleting the characters of a set *)

Section DeleteSet.

Variable cs : cset.

Lemma match_at_one (s : str) (nonempty : bool) :
  match_at (One cs) s nonempty
  = match s with
    | c :: t => if has cs c then Some (t, []) else None
    | [] => None
    end.
Proof.
  unfold match_at. cbn [runs]. destruct s as [|c t]; [reflexivity|].
  destruct (has cs c); [|reflexivity].
  cbn [filter fst length]. rewrite orb_comm.
  replace (length t <? S (length t)) with true
    by (symmetry; apply Nat.ltb_lt; lia).
  reflexivity.
Qed.

Lemma delete_set_from :
  forall (s : str) (fuel : nat),
    length s < fuel ->
    rebuild [] (scan fuel (One cs) s false) s
    = filter (fun c => negb (has cs c)) s.
Proof.
  induction s as [|c t IH]; intros fuel Hfuel.
  - apply rebuild_scan_end. apply match_at_one.
  - cbn [filter]. destruct (has cs c) eqn:E; cbn [negb].
    + destruct fuel as [|fuel]; [inversion Hfuel|].
      rewrite (@rebuild_scan_hit (One cs) [] fuel (c :: t) t [] false)
        by (rewrite match_at_one; now rewrite E).
      unfold consumed. cbn [length].
      replace (S (length t) - length t) with 1 by lia.
      cbn [firstn app]. apply IH. cbn [length] in Hfuel. lia.
    + rewrite rebuild_scan_skip by (rewrite match_at_one; now rewrite E).
      f_equal. apply IH. cbn [length] in Hfuel. lia.
Qed.

(** [re.sub] of a one-character set by the empty string is a filter. *)
Lemma sub_one_delete (s : str) :
  sub (One cs) [] s = filter (fun c => negb (has cs c)) s.
Proof. unfold sub, finditer. apply delete_set_from. lia. Qed.

End DeleteSet.

(** ** Replacing the long runs of a set *)

Section ReplaceRuns.

Variable cs : cset.
Variable lo : nat.
Variable repl : str.
Hypothesis lo_positive : 1 <= lo.

(** The length of the run of [cs] that starts [s], and what follows it. *)
Fixpoint run_len (s : str) : nat :=
  match s with
  | c :: t => if has cs c then S (run_len t) else 0
  | [] => 0
  end.

Fixpoint drop_run (s : str) : str :=
  match s with
  | c :: t => if has cs c then drop_run t else s
  | [] => []
  end.

(** What [re.sub] of [cs{lo,}] by [repl] computes: a run of at least [lo]
    characters is replaced as a whole, a shorter one is kept; [inside]
    tells that the run being read has been replaced. *)
Fixpoint squeeze (inside : bool) (s : str) : str :=
  match s with
  | [] => []
  | c :: t =>
      if has cs c then
        if inside then squeeze true t
        else if lo <=? run_len s then repl ++ squeeze true t
             else c :: squeeze false t
      else c :: squeeze false t
  end.

Lemma drop_run_length (s : str) : length (drop_run s) + run_len s = length s.
Proof.
  induction s as [|c t IH]; [reflexivity|].
  cbn [drop_run run_len]. destruct (has cs c); cbn [length]; lia.
Qed.

Lemma tails_in_run (s : str) :
  exists pre, tails_in cs s = pre ++ [drop_run s] /\ length pre = run_len s.
Proof.
  induction s as [|c t [pre [Ht Hl]]].
  - exists []. split; reflexivity.
  - cbn [tails_in drop_run run_len]. destruct (has cs c).
    + exists ((c :: t) :: pre). rewrite Ht. split; [reflexivity|].
      cbn [length]. now rewrite Hl.
    + exists []. split; reflexivity.
Qed.

Lemma match_at_rep (s : str) (nonempty : bool) :
  match_at (Rep cs lo true) s nonempty
  = if lo <=? run_len s then Some (drop_run s, []) else None.
Proof.
  unfold match_at. cbn [runs].
  destruct (tails_in_run s) as [pre [Ht Hl]]. rewrite Ht.
  destruct (lo <=? run_len s) eqn:E.
  - apply Nat.leb_le in E.
    rewrite skipn_app. replace (lo - length pre) with 0 by lia.
    cbn [skipn]. rewrite rev_app_distr. cbn [rev app map filter fst].
    replace (length (drop_run s) <? length s) with true.
    + now rewrite orb_true_r.
    + symmetry. apply Nat.ltb_lt. pose proof (drop_run_length s). lia.
  - apply Nat.leb_gt in E.
    rewrite skipn_all2 by (rewrite length_app; cbn [length]; lia).
    reflexivity.
Qed.

Lemma squeeze_inside (s : str) : squeeze true s = squeeze false (drop_run s).
Proof.
  induction s as [|c t IH]; [reflexivity|].
  cbn [squeeze drop_run]. destruct (has cs c) eqn:E; [exact IH|].
  cbn [squeeze]. now rewrite E.
Qed.

Lemma drop_run_cons (c : char) (t : str) :
  has cs c = true -> drop_run (c :: t) = drop_run t.
Proof. intros E. cbn [drop_run]. now rewrite E. Qed.

Lemma replace_runs_from :
  forall (n : nat) (s : str) (fuel : nat),
    length s <= n -> length s < fuel ->
    rebuild repl (scan fuel (Rep cs lo true) s false) s = squeeze false s.
Proof.
  induction n as [|n IH]; intros s fuel Hn Hfuel.
  - destruct s as [|c t]; [|cbn [length] in Hn; lia].
    apply rebuild_scan_end. rewrite match_at_rep. cbn [run_len].
    replace (lo <=? 0) with false by (symmetry; apply Nat.leb_gt; lia).
    reflexivity.
  - destruct s as [|c t].
    + apply rebuild_scan_end. rewrite match_at_rep. cbn [run_len].
      replace (lo <=? 0) with false by (symmetry; apply Nat.leb_gt; lia).
      reflexivity.
    + cbn [length] in Hn, Hfuel.
      destruct (lo <=? run_len (c :: t)) eqn:E.
      * destruct fuel as [|fuel]; [lia|].
        rewrite (@rebuild_scan_hit (Rep cs lo true) repl fuel (c :: t)
                   (drop_run (c :: t)) [] false)
          by (rewrite match_at_rep; now rewrite E).
        assert (Hc : has cs c = true).
        { apply Nat.leb_le in E. cbn [run_len] in E.
          destruct (has cs c); [reflexivity|lia]. }
        pose proof (drop_run_length (c :: t)) as Hd.
        apply Nat.leb_le in E. cbn [length] in Hd.
        unfold consumed. cbn [length].
        destruct (S (length t) - length (drop_run (c :: t))) as [|k] eqn:Hk; [lia|].
        cbn [firstn]. rewrite IH by lia.
        cbn [squeeze]. rewrite Hc.
        replace (lo <=? run_len (c :: t)) with true
          by (symmetry; apply Nat.leb_le; exact E).
        rewrite squeeze_inside. now rewrite drop_run_cons.
      * rewrite rebuild_scan_skip by (rewrite match_at_rep; now rewrite E).
        rewrite IH by lia. cbn [squeeze]. rewrite E.
        destruct (has cs c); reflexivity.
Qed.

(** [re.sub] of [cs{lo,}] by [repl]. *)
Lemma sub_rep_squeeze (s : str) :
  sub (Rep cs lo true) repl s = squeeze false s.
Proof.
  unfold sub, finditer. apply replace_runs_from with (n := length s); lia.
Qed.

End ReplaceRuns.

Section ReplaceRunsFacts.

Variable cs : cset.
Variable lo : nat.
Variable repl : str.

Lemma squeeze_Forall (P : char -> Prop) :
  Forall P repl ->
  forall (s : str) (inside : bool), Forall P s -> Forall P (squeeze cs lo repl inside s).
Proof.
  intros Hrepl. induction s as [|c t IH]; intros inside Hs; [constructor|].
  inversion Hs as [|? ? Hc Ht]; subst. cbn [squeeze].
  destruct (has cs c).
  - destruct inside; [now apply IH|].
    destruct (lo <=? run_len cs (c :: t)).
    + apply Forall_app. split; [exact Hrepl|now apply IH].
    + constructor; [exact Hc|now apply IH].
  - constructor; [exact Hc|now apply IH].
Qed.

(** After a replaced run comes a character outside the set, or nothing. *)
Lemma squeeze_inside_head (s : str) :
  run_len cs (squeeze cs lo repl true s) = 0.
Proof.
  induction s as [|c t IH]; [reflexivity|].
  cbn [squeeze]. destruct (has cs c) eqn:E; [exact IH|].
  cbn [run_len]. now rewrite E.
Qed.

(** A short run at the start is left as it is. *)
Lemma squeeze_short_run (s : str) :
  run_len cs s < lo ->
  run_len cs (squeeze cs lo repl false s) = run_len cs s.
Proof.
  induction s as [|c t IH]; intros Hshort; [reflexivity|].
  cbn [squeeze]. destruct (has cs c) eqn:E.
  - replace (lo <=? run_len cs (c :: t)) with false
      by (symmetry; apply Nat.leb_gt; exact Hshort).
    cbn [run_len] in *. rewrite E in *. rewrite IH by lia. reflexivity.
  - cbn [run_len]. now rewrite E.
Qed.

Lemma run_len_zero_drop (s : str) : run_len cs s = 0 -> drop_run cs s = s.
Proof.
  destruct s as [|c t]; [reflexivity|]. cbn [run_len drop_run].
  destruct (has cs c); [discriminate|reflexivity].
Qed.

End ReplaceRunsFacts.

(** ** Properties of every suffix *)

Section Tails.

Variable P : str -> Prop.

(** [P] holds of every non-empty suffix. *)
Fixpoint every_tail (s : str) : Prop :=
  match s with
  | [] => True
  | _ :: t => P s /\ every_tail t
  end.

Lemma every_tail_suffix (u s : str) : every_tail (u ++ s) -> every_tail s.
Proof.
  induction u as [|c u IH]; [auto|]. cbn [app every_tail]. intros [_ H]. auto.
Qed.

Hypothesis P_prefix : forall c s v, P ((c :: s) ++ v) -> P (c :: s).

Lemma every_tail_prefix (s v : str) : every_tail (s ++ v) -> every_tail s.
Proof.
  induction s as [|c s IH]; [constructor|].
  cbn [every_tail]. intros [Hp Ht]. split; [|now apply IH].
  eapply P_prefix. exact Hp.
Qed.

Lemma every_tail_strip (s : str) : every_tail s -> every_tail (strip s).
Proof.
  destruct (strip_factor s) as [u [v H]]. intros Hs. rewrite H in Hs.
  apply every_tail_suffix in Hs. now apply every_tail_prefix in Hs.
Qed.

End Tails.

Lemma Forall_strip (P : char -> Prop) (s : str) : Forall P s -> Forall P (strip s).
Proof.
  destruct (strip_factor s) as [u [v H]]. intros Hs. rewrite H in Hs.
  apply Forall_app in Hs. destruct Hs as [_ Hs].
  apply Forall_app in Hs. tauto.
Qed.

(** ** The steps of [clean_text] *)

Section Normalizer.

Import ExtractDocuments.

Definition blank_set : cset := OneOf [Chr SP; Chr TAB].
Definition newline_set : cset := OneOf [Chr LF].

(** The characters that [clean_text] keeps. *)
Definition allowed (c : char) : bool := has (OneOf allow_list) c.

Definition expand_ff (s : str) : str :=
  flat_map (fun c => if N.eqb FF c then [LF; LF] else [c]) s.

Definition squeeze_blanks : bool -> str -> str := squeeze blank_set 1 [SP].
Definition squeeze_newlines : bool -> str -> str := squeeze newline_set 3 [LF; LF].

Lemma replace_ff (s : str) : replace s [FF] [LF; LF] = expand_ff s.
Proof.
  unfold replace. induction s as [|c t IH]; [reflexivity|].
  cbn [replace_from startswith expand_ff flat_map length].
  replace (startswith t []) with true by (destruct t; reflexivity).
  rewrite andb_true_r. fold (expand_ff t). rewrite <- IH.
  destruct (N.eqb FF c); reflexivity.
Qed.

Lemma clean_text_steps (s : str) :
  s <> [] ->
  clean_text s
  = strip (filter allowed (squeeze_newlines false (squeeze_blanks false (expand_ff s)))).
Proof.
  intros Hne. destruct s as [|c t]; [now destruct Hne|].
  unfold clean_text, blanks, newlines3, special.
  rewrite replace_ff.
  rewrite sub_rep_squeeze by lia. rewrite sub_rep_squeeze by lia.
  rewrite sub_one_delete. fold blank_set newline_set.
  f_equal. apply filter_ext. intros a. unfold allowed. cbn [has].
  apply negb_involutive.
Qed.

Lemma blank_cases (c : char) : has blank_set c = true <-> c = SP \/ c = TAB.
Proof.
  unfold blank_set. cbn [has existsb item_has]. rewrite !orb_true_iff, !N.eqb_eq.
  split; [intros [H|[H|H]]|intros [H|H]]; auto; discriminate.
Qed.

Lemma not_blank_cases (c : char) : has blank_set c = false -> c <> SP /\ c <> TAB.
Proof.
  intros H. split; intros E; subst c; discriminate.
Qed.

Lemma newline_cases (c : char) : has newline_set c = true <-> c = LF.
Proof.
  unfold newline_set. cbn [has existsb item_has]. rewrite !orb_true_iff, !N.eqb_eq.
  split; [intros [H|H]|intros H]; auto; discriminate.
Qed.

(** ** Normal forms *)

Definition no_ff (s : str) : Prop := Forall (fun c => c <> FF) s.
Definition no_tab (s : str) : Prop := Forall (fun c => c <> TAB) s.
Definition all_allowed (s : str) : Prop := Forall (fun c => allowed c = true) s.

(** No space follows a space. *)
Definition lone_space (s : str) : Prop :=
  match s with
  | a :: b :: _ => a = SP -> b <> SP
  | _ => True
  end.

Definition single_sp : str -> Prop := every_tail lone_space.

(** No three newlines in a row. *)
Definition short_nl : str -> Prop := every_tail (fun s => run_len newline_set s <= 2).

Lemma lone_space_prefix (c : char) (s v : str) :
  lone_space ((c :: s) ++ v) -> lone_space (c :: s).
Proof. destruct s as [|b s]; [constructor|auto]. Qed.

Lemma run_len_app (cs : cset) (s v : str) : run_len cs s <= run_len cs (s ++ v).
Proof.
  induction s as [|c s IH]; cbn [run_len app]; [lia|].
  destruct (has cs c); lia.
Qed.

Lemma short_run_prefix (c : char) (s v : str) :
  run_len newline_set ((c :: s) ++ v) <= 2 -> run_len newline_set (c :: s) <= 2.
Proof. pose proof (run_len_app newline_set (c :: s) v). lia. Qed.

Lemma run_len_zero_head (cs : cset) (s : str) :
  run_len cs s = 0 ->
  match s with
  | b :: _ => has cs b = false
  | [] => True
  end.
Proof.
  destruct s as [|b s]; [constructor|]. cbn [run_len].
  destruct (has cs b); [discriminate|reflexivity].
Qed.

(** ** Replacing form feeds *)

Lemma expand_ff_no_ff (s : str) : no_ff (expand_ff s).
Proof.
  unfold no_ff, expand_ff. induction s as [|c t IH]; [constructor|].
  cbn [flat_map]. apply Forall_app. split; [|exact IH].
  destruct (N.eqb FF c) eqn:E.
  - repeat constructor; discriminate.
  - constructor; [|constructor]. intros H. subst c. discriminate.
Qed.

Lemma expand_ff_allowed (s : str) : all_allowed s -> all_allowed (expand_ff s).
Proof.
  unfold all_allowed, expand_ff. induction 1 as [|c t Hc Ht IH]; [constructor|].
  cbn [flat_map]. apply Forall_app. split; [|exact IH].
  destruct (N.eqb FF c); repeat constructor. exact Hc.
Qed.

Lemma expand_ff_fixed (s : str) : no_ff s -> expand_ff s = s.
Proof.
  unfold no_ff, expand_ff. induction 1 as [|c t Hc Ht IH]; [reflexivity|].
  cbn [flat_map]. rewrite IH. destruct (N.eqb FF c) eqn:E; [|reflexivity].
  apply N.eqb_eq in E. now destruct Hc.
Qed.

(** ** Collapsing blanks *)

Lemma squeeze_blanks_normal (s : str) :
  forall inside,
    no_tab (squeeze_blanks inside s) /\ single_sp (squeeze_blanks inside s).
Proof.
  unfold squeeze_blanks, no_tab, single_sp.
  induction s as [|c t IH]; intros inside; [split; constructor|].
  cbn [squeeze]. destruct (has blank_set c) eqn:E.
  - destruct inside; [apply IH|].
    cbn [run_len]. rewrite E. cbn [Nat.leb app].
    destruct (IH true) as [Htab Hsp]. split.
    + constructor; [discriminate|exact Htab].
    + cbn [every_tail]. split; [|exact Hsp].
      pose proof (squeeze_inside_head blank_set 1 [SP] t) as Hhead.
      apply run_len_zero_head in Hhead. unfold lone_space.
      destruct (squeeze blank_set 1 [SP] true t) as [|b rest]; [constructor|].
      intros _. apply not_blank_cases in Hhead. tauto.
  - destruct (IH false) as [Htab Hsp]. apply not_blank_cases in E. split.
    + constructor; tauto.
    + cbn [every_tail]. split; [|exact Hsp]. unfold lone_space.
      destruct (squeeze blank_set 1 [SP] false t); [constructor|]. tauto.
Qed.

Lemma squeeze_blanks_fixed (s : str) :
  no_tab s -> single_sp s -> squeeze_blanks false s = s.
Proof.
  unfold squeeze_blanks, no_tab, single_sp.
  induction s as [|c t IH]; intros Htab Hsp; [reflexivity|].
  inversion Htab as [|? ? Hc Htab']; subst.
  cbn [every_tail] in Hsp. destruct Hsp as [Hlone Hsp'].
  cbn [squeeze]. destruct (has blank_set c) eqn:E.
  - cbn [run_len]. rewrite E. cbn [Nat.leb app].
    apply blank_cases in E. destruct E as [E|E]; [subst c|contradiction].
    rewrite squeeze_inside. rewrite run_len_zero_drop.
    + now rewrite IH.
    + destruct t as [|b t']; [reflexivity|]. cbn [run_len].
      destruct (has blank_set b) eqn:Eb; [|reflexivity].
      apply blank_cases in Eb. unfold lone_space in Hlone.
      inversion Htab' as [|? ? Hb _]; subst.
      destruct Eb as [Eb|Eb]; [now destruct (Hlone eq_refl)|contradiction].
  - now rewrite IH.
Qed.

(** ** Collapsing newlines *)

Lemma squeeze_newlines_normal (s : str) :
  forall inside, short_nl (squeeze_newlines inside s).
Proof.
  unfold squeeze_newlines, short_nl.
  induction s as [|c t IH]; intros inside; [constructor|].
  cbn [squeeze]. destruct (has newline_set c) eqn:E.
  - destruct inside; [apply IH|].
    destruct (3 <=? run_len newline_set (c :: t)) eqn:L.
    + cbn [app every_tail run_len]. cbn [has newline_set existsb item_has].
      rewrite N.eqb_refl. cbn [orb].
      rewrite (squeeze_inside_head newline_set 3 [LF; LF] t).
      repeat split; [lia|lia|apply IH].
    + apply Nat.leb_gt in L. cbn [run_len] in L. rewrite E in L.
      cbn [every_tail]. split; [|apply IH].
      cbn [run_len]. rewrite E. rewrite squeeze_short_run by lia. lia.
  - cbn [every_tail]. split; [|apply IH]. cbn [run_len]. rewrite E. lia.
Qed.

Lemma squeeze_newlines_fixed (s : str) :
  short_nl s -> squeeze_newlines false s = s.
Proof.
  unfold squeeze_newlines, short_nl.
  induction s as [|c t IH]; intros Hs; [reflexivity|].
  cbn [every_tail] in Hs. destruct Hs as [Hrun Hs'].
  cbn [squeeze].
  replace (3 <=? run_len newline_set (c :: t)) with false
    by (symmetry; apply Nat.leb_gt; lia).
  rewrite IH by exact Hs'. destruct (has newline_set c); reflexivity.
Qed.

(** What starts the result is a newline or what started the text. *)
Lemma squeeze_newlines_head (t : str) :
  match squeeze_newlines false t with
  | x :: _ => x = LF \/ exists t', t = x :: t'
  | [] => True
  end.
Proof.
  unfold squeeze_newlines. destruct t as [|c t]; [constructor|].
  cbn [squeeze]. destruct (has newline_set c).
  - destruct (3 <=? run_len newline_set (c :: t)); cbn [app]; eauto.
  - eauto.
Qed.

Lemma lone_space_after (c : char) (t : str) :
  lone_space (c :: t) -> lone_space (c :: squeeze_newlines false t).
Proof.
  intros H. pose proof (squeeze_newlines_head t) as Hhead. unfold lone_space.
  destruct (squeeze_newlines false t) as [|x rest]; [constructor|].
  destruct Hhead as [Hx|[t' Ht]].
  - subst x. intros _. discriminate.
  - subst t. exact H.
Qed.

Lemma squeeze_newlines_single_sp (s : str) :
  forall inside, single_sp s -> single_sp (squeeze_newlines inside s).
Proof.
  unfold single_sp. induction s as [|c t IH]; intros inside Hs; [constructor|].
  cbn [every_tail] in Hs. destruct Hs as [Hlone Hs'].
  unfold squeeze_newlines. cbn [squeeze]. fold squeeze_newlines.
  destruct (has newline_set c) eqn:E.
  - destruct inside; [now apply IH|].
    destruct (3 <=? run_len newline_set (c :: t)).
    + cbn [app every_tail]. repeat split.
      * unfold lone_space. intros H. discriminate.
      * unfold lone_space. destruct (squeeze_newlines true t); [constructor|].
        intros H. discriminate.
      * now apply IH.
    + cbn [every_tail]. split; [now apply lone_space_after|now apply IH].
  - cbn [every_tail]. split; [now apply lone_space_after|now apply IH].
Qed.

(** ** Deleting the other characters, and trimming *)

Lemma filter_allowed_fixed (s : str) : all_allowed s -> filter allowed s = s.
Proof.
  unfold all_allowed. induction 1 as [|c t Hc Ht IH]; [reflexivity|].
  cbn [filter]. now rewrite Hc, IH.
Qed.

Lemma filter_allowed_all (s : str) : all_allowed (filter allowed s).
Proof.
  unfold all_allowed. apply Forall_forall. intros c Hc.
  apply filter_In in Hc. tauto.
Qed.

Lemma lstrip_fixed (s : str) :
  match s with
  | c :: _ => Unicode.isspace c = false
  | [] => True
  end ->
  lstrip s = s.
Proof.
  destruct s as [|c t]; [reflexivity|]. cbn [lstrip]. now intros ->.
Qed.

Lemma lstrip_head (s : str) :
  match lstrip s with
  | c :: _ => Unicode.isspace c = false
  | [] => True
  end.
Proof.
  induction s as [|c t IH]; [constructor|]. cbn [lstrip].
  destruct (Unicode.isspace c) eqn:E; [exact IH|exact E].
Qed.

Lemma lstrip_idempotent (s : str) : lstrip (lstrip s) = lstrip s.
Proof. apply lstrip_fixed, lstrip_head. Qed.

Lemma rstrip_idempotent (s : str) : rstrip (rstrip s) = rstrip s.
Proof.
  unfold rstrip. rewrite rev_involutive. now rewrite lstrip_idempotent.
Qed.

Lemma strip_idempotent (s : str) : strip (strip s) = strip s.
Proof.
  unfold strip.
  assert (H : lstrip (rstrip (lstrip s)) = rstrip (lstrip s)).
  { apply lstrip_fixed. pose proof (lstrip_head s) as Hh.
    destruct (rstrip_prefix (lstrip s)) as [w Hw].
    destruct (rstrip (lstrip s)) as [|c y]; [constructor|].
    rewrite Hw in Hh. exact Hh. }
  rewrite H. apply rstrip_idempotent.
Qed.

(** ** Fixed points of [clean_text] *)

(** The form of a text that [clean_text] leaves as it is. *)
Definition normal (s : str) : Prop :=
  no_ff s /\ no_tab s /\ single_sp s /\ short_nl s /\ all_allowed s /\ strip s = s.

Lemma clean_text_fixed (s : str) : normal s -> clean_text s = s.
Proof.
  intros [Hff [Htab [Hsp [Hnl [Hall Hstrip]]]]].
  destruct s as [|c t]; [reflexivity|].
  rewrite clean_text_steps by discriminate.
  rewrite expand_ff_fixed by exact Hff.
  rewrite squeeze_blanks_fixed by assumption.
  rewrite squeeze_newlines_fixed by exact Hnl.
  rewrite filter_allowed_fixed by exact Hall.
  exact Hstrip.
Qed.

Lemma normal_nil : normal [].
Proof. repeat split; constructor. Qed.

Lemma allowed_LF : allowed LF = true.
Proof. reflexivity. Qed.

Lemma allowed_SP : allowed SP = true.
Proof. reflexivity. Qed.

(** On a text of allowed characters nothing is deleted after the blanks
    and newlines are collapsed, and the result is in normal form. *)
Lemma clean_text_normal (s : str) : all_allowed s -> normal (clean_text s).
Proof.
  intros Hall. destruct s as [|c t]; [apply normal_nil|].
  rewrite clean_text_steps by discriminate.
  set (t0 := expand_ff (c :: t)).
  set (t1 := squeeze_blanks false t0).
  set (t2 := squeeze_newlines false t1).
  assert (Hall0 : all_allowed t0) by now apply expand_ff_allowed.
  assert (Hall1 : all_allowed t1).
  { apply squeeze_Forall; [|exact Hall0]. repeat constructor. }
  assert (Hall2 : all_allowed t2).
  { apply squeeze_Forall; [|exact Hall1]. repeat constructor. }
  rewrite filter_allowed_fixed by exact Hall2.
  assert (Hff2 : no_ff t2).
  { apply squeeze_Forall; [repeat constructor; discriminate|].
    apply squeeze_Forall; [repeat constructor; discriminate|].
    apply expand_ff_no_ff. }
  destruct (squeeze_blanks_normal t0 false) as [Htab1 Hsp1]. fold t1 in Htab1, Hsp1.
  assert (Htab2 : no_tab t2).
  { apply squeeze_Forall; [repeat constructor; discriminate|exact Htab1]. }
  assert (Hsp2 : single_sp t2) by now apply squeeze_newlines_single_sp.
  assert (Hnl2 : short_nl t2) by apply squeeze_newlines_normal.
  repeat split.
  - now apply Forall_strip.
  - now apply Forall_strip.
  - apply every_tail_strip; [exact lone_space_prefix|exact Hsp2].
  - apply every_tail_strip; [exact short_run_prefix|exact Hnl2].
  - now apply Forall_strip.
  - apply strip_idempotent.
Qed.

Lemma clean_text_allowed (s : str) : all_allowed (clean_text s).
Proof.
  destruct s as [|c t]; [constructor|].
  rewrite clean_text_steps by discriminate.
  apply Forall_strip. apply filter_allowed_all.
Qed.

Lemma clean_text_twice_of_allowed (s : str) :
  all_allowed s -> clean_text (clean_text s) = clean_text s.
Proof. intros H. apply clean_text_fixed. now apply clean_text_normal. Qed.

(** C4 as stated fails: a deleted character may leave two spaces side by
    side, which a second pass collapses. *)
Lemma clean_text_not_idempotent :
  clean_text (py "a * b") = py "a  b"
  /\ clean_text (clean_text (py "a * b")) = py "a b"
  /\ clean_text (clean_text (py "a * b")) <> clean_text (py "a * b").
Proof.
  vm_compute. repeat split. discriminate.
Qed.

(** C4, amended.  On every string made of allow-listed characters only
    (word characters, whitespace and [. , ; : ( ) ¿ ? ¡ ! -]), normalising
    twice gives what normalising once gives. *)
Theorem clean_text_idempotent_on_allowed :
  forall s : str,
    forallb allowed s = true ->
    clean_text (clean_text s) = clean_text s.
Proof.
  intros s H. apply clean_text_twice_of_allowed.
  unfold all_allowed. apply Forall_forall. intros c Hc.
  rewrite forallb_forall in H. now apply H.
Qed.

Lemma clean_text_idempotent_on_allowed_witness :
  let s := [FF] ++ py "Artículo  21.	Plazo:" ++ [LF; LF; LF; LF] ++ py " ¿diez días? " in
  clean_text (clean_text s) = clean_text s.
Proof.
  intros s. apply clean_text_idempotent_on_allowed. vm_compute. reflexivity.
Defined.

(** On every string, a third pass changes nothing. *)
Corollary clean_text_stable_after_two (s : str) :
  clean_text (clean_text (clean_text s)) = clean_text (clean_text s).
Proof. apply clean_text_twice_of_allowed, clean_text_allowed. Qed.

End Normalizer.

(* ================================================================== *)
(** * Further properties of the text normaliser *)
(* ================================================================== *)

Section NormalizerFacts.

Import ExtractDocuments.

Lemma startswith_nil (s : str) : startswith s [] = true.
Proof. destruct s; reflexivity. Qed.

Lemma Forall_filter_keep (A : Type) (P : A -> Prop) (f : A -> bool) (l : list A) :
  Forall P l -> Forall P (filter f l).
Proof.
  intros H. apply Forall_forall. intros x Hx. apply filter_In in Hx.
  rewrite Forall_forall in H. now apply H.
Qed.

Lemma expand_ff_Forall (P : char -> Prop) (s : str) :
  P LF -> Forall P s -> Forall P (expand_ff s).
Proof.
  intros HLF. unfold expand_ff. induction 1 as [|c t Hc Ht IH]; [constructor|].
  cbn [flat_map]. apply Forall_app. split; [|exact IH].
  destruct (N.eqb FF c); repeat constructor; assumption.
Qed.

(** Before the deletion step the text is free of form feeds and tabs. *)
Lemma collapsed_no_ff_tab (s : str) :
  let t2 := squeeze_newlines false (squeeze_blanks false (expand_ff s)) in
  no_ff t2 /\ no_tab t2.
Proof.
  cbn zeta. split.
  - apply squeeze_Forall; [repeat constructor; discriminate|].
    apply squeeze_Forall; [repeat constructor; discriminate|].
    apply expand_ff_no_ff.
  - apply squeeze_Forall; [repeat constructor; discriminate|].
    apply squeeze_blanks_normal.
Qed.

Lemma bracket_not_allowed : allowed (ch "[") = false /\ allowed (ch "]") = false.
Proof. vm_compute. split; reflexivity. Qed.

(** Every character of a normalised text is on the allow-list and is
    neither a form feed nor a tab; in particular no square bracket is left. *)
Theorem clean_text_alphabet :
  forall s : str,
    Forall
      (fun c =>
         allowed c = true /\ c <> FF /\ c <> TAB /\ c <> ch "[" /\ c <> ch "]")
      (clean_text s).
Proof.
  intros s. apply Forall_forall. intros c Hin.
  assert (H : allowed c = true /\ c <> FF /\ c <> TAB).
  { destruct s as [|a t]; [destruct Hin|].
    rewrite clean_text_steps in Hin by discriminate.
    destruct (collapsed_no_ff_tab (a :: t)) as [Hff Htab].
    pose proof (Forall_strip (Forall_filter_keep allowed Hff)) as Hff'.
    pose proof (Forall_strip (Forall_filter_keep allowed Htab)) as Htab'.
    pose proof (clean_text_allowed (a :: t)) as Hall.
    rewrite clean_text_steps in Hall by discriminate.
    unfold all_allowed in Hall.
    rewrite Forall_forall in Hff', Htab', Hall. auto. }
  destruct H as [Hall [Hff Htab]]. repeat split; try assumption.
  - intros E. subst c. destruct bracket_not_allowed as [Hb _].
    rewrite Hb in Hall. discriminate.
  - intros E. subst c. destruct bracket_not_allowed as [_ Hb].
    rewrite Hb in Hall. discriminate.
Qed.

Lemma clean_text_stripped (s : str) : strip (clean_text s) = clean_text s.
Proof.
  destruct s as [|a t]; [reflexivity|].
  rewrite clean_text_steps by discriminate. apply strip_idempotent.
Qed.

Lemma rstrip_head (s : str) :
  match rev (rstrip s) with
  | c :: _ => Unicode.isspace c = false
  | [] => True
  end.
Proof. unfold rstrip. rewrite rev_involutive. apply lstrip_head. Qed.

(** A normalised text neither starts nor ends with whitespace: trimming it
    again changes nothing. *)
Theorem clean_text_trimmed :
  forall s : str,
    strip (clean_text s) = clean_text s
    /\ match clean_text s with
       | c :: _ => Unicode.isspace c = false
       | [] => True
       end
    /\ match rev (clean_text s) with
       | c :: _ => Unicode.isspace c = false
       | [] => True
       end.
Proof.
  intros s. pose proof (clean_text_stripped s) as H. split; [exact H|].
  split.
  - rewrite <- H. unfold strip.
    pose proof (lstrip_head (clean_text s)) as Hh.
    destruct (rstrip_prefix (lstrip (clean_text s))) as [w Hw].
    destruct (rstrip (lstrip (clean_text s))) as [|c y]; [constructor|].
    rewrite Hw in Hh. exact Hh.
  - rewrite <- H. unfold strip. apply rstrip_head.
Qed.

Lemma lstrip_all_space (s : str) :
  Forall (fun c => Unicode.isspace c = true) s -> lstrip s = [].
Proof.
  induction 1 as [|c t Hc Ht IH]; [reflexivity|]. cbn [lstrip]. now rewrite Hc.
Qed.

(** A text made of whitespace only (a blank page) is normalised to the
    empty string. *)
Theorem clean_text_of_blank :
  forall s : str,
    forallb Unicode.isspace s = true -> clean_text s = [].
Proof.
  intros s H.
  assert (Hs : Forall (fun c => Unicode.isspace c = true) s).
  { apply Forall_forall. intros c Hc. rewrite forallb_forall in H. now apply H. }
  destruct s as [|a t]; [reflexivity|].
  rewrite clean_text_steps by discriminate.
  unfold strip. rewrite lstrip_all_space; [reflexivity|].
  apply Forall_filter_keep.
  apply squeeze_Forall; [repeat constructor|].
  apply squeeze_Forall; [repeat constructor|].
  apply expand_ff_Forall; [reflexivity|exact Hs].
Qed.

Lemma clean_text_of_blank_witness :
  clean_text (py "  " ++ [TAB; LF; FF; LF; 160%N] ++ py " ") = [].
Proof.
  apply clean_text_of_blank. vm_compute. reflexivity.
Defined.

Lemma single_sp_no_double (r : str) : single_sp r -> contains [SP; SP] r = false.
Proof.
  unfold single_sp. induction r as [|c t IH]; intros H; [reflexivity|].
  cbn [every_tail] in H. destruct H as [Hl Ht].
  cbn [contains]. rewrite IH by exact Ht. rewrite orb_false_r.
  cbn [startswith]. destruct (N.eqb SP c) eqn:E; cbn [andb]; [|reflexivity].
  apply N.eqb_eq in E. subst c. destruct t as [|b t']; [reflexivity|].
  cbn [lone_space] in Hl. cbn [startswith].
  destruct (N.eqb SP b) eqn:Eb; cbn [andb]; [|reflexivity].
  apply N.eqb_eq in Eb. subst b. now destruct (Hl eq_refl).
Qed.

Lemma short_nl_no_triple (r : str) : short_nl r -> contains [LF; LF; LF] r = false.
Proof.
  unfold short_nl. induction r as [|c t IH]; intros H; [reflexivity|].
  cbn [every_tail] in H. destruct H as [Hl Ht].
  cbn [contains]. rewrite IH by exact Ht. rewrite orb_false_r.
  cbn [startswith].
  destruct (N.eqb LF c) eqn:E; cbn [andb]; [|reflexivity].
  destruct t as [|b t']; [reflexivity|]. cbn [startswith].
  destruct (N.eqb LF b) eqn:Eb; cbn [andb]; [|reflexivity].
  destruct t' as [|d t'']; [reflexivity|]. cbn [startswith].
  destruct (N.eqb LF d) eqn:Ed; cbn [andb]; [|reflexivity].
  exfalso. cbn [run_len has newline_set existsb item_has] in Hl.
  rewrite E, Eb, Ed in Hl. cbn [orb] in Hl. lia.
Qed.

(** On a text of allow-listed characters the result has no tab, no two
    spaces in a row and no three newlines in a row. *)
Theorem clean_text_collapsed :
  forall s : str,
    forallb allowed s = true ->
    contains [TAB] (clean_text s) = false
    /\ contains [SP; SP] (clean_text s) = false
    /\ contains [LF; LF; LF] (clean_text s) = false.
Proof.
  intros s H.
  assert (Hs : all_allowed s).
  { apply Forall_forall. intros c Hc. rewrite forallb_forall in H. now apply H. }
  destruct (clean_text_normal Hs) as [_ [Htab [Hsp [Hnl _]]]].
  split; [|split].
  - clear - Htab. unfold no_tab in Htab.
    induction Htab as [|c t Hc Ht IH]; [reflexivity|].
    cbn [contains startswith]. rewrite IH, orb_false_r, startswith_nil, andb_true_r.
    apply N.eqb_neq. intros E. now destruct Hc.
  - now apply single_sp_no_double.
  - now apply short_nl_no_triple.
Qed.

Lemma clean_text_collapsed_witness :
  let s := py "Plazo:   diez	 días" ++ [LF; LF; LF; LF; LF] ++ py "Fin." in
  contains [TAB] (clean_text s) = false
  /\ contains [SP; SP] (clean_text s) = false
  /\ contains [LF; LF; LF] (clean_text s) = false.
Proof.
  intros s. apply clean_text_collapsed. vm_compute. reflexivity.
Defined.

End NormalizerFacts.

(* ================================================================== *)
(** * Further properties of the matcher and of the article segmenter *)
(* ================================================================== *)

Section MatcherFacts.

(** A pattern without capturing group. *)
Fixpoint group_free (r : regex) : bool :=
  match r with
  | Group _ _ => false
  | Cat r1 r2 => group_free r1 && group_free r2
  | Alt r1 r2 => group_free r1 && group_free r2
  | Ahead r1 => group_free r1
  | Lit _ | One _ | Rep _ _ _ | Eos => true
  end.

Lemma runs_cat (r1 r2 : regex) (s : str) (g : groups) (e : str * groups) :
  In e (runs (Cat r1 r2) s g) <->
  exists e1, In e1 (runs r1 s g) /\ In e (runs r2 (fst e1) (snd e1)).
Proof. cbn [runs]. apply in_flat_map. Qed.

Lemma runs_group (i : nat) (r : regex) (s : str) (g : groups) (e : str * groups) :
  In e (runs (Group i r) s g) ->
  exists e', In e' (runs r s g)
             /\ e = (fst e', (i, consumed s (fst e')) :: snd e').
Proof.
  cbn [runs]. intros H. apply in_map_iff in H. destruct H as [e' [He Hin]].
  exists e'. split; [exact Hin|now symmetry].
Qed.

Lemma runs_group_free :
  forall r : regex,
    group_free r = true ->
    forall s g e, In e (runs r s g) -> snd e = g.
Proof.
  induction r as [w|cs|cs lo greedy|r1 IH1 r2 IH2|r1 IH1 r2 IH2|i r IH|r IH|];
    cbn [group_free]; intros Hfree s g e Hin.
  - cbn [runs] in Hin. destruct (startswith s w); [|destruct Hin].
    destruct Hin as [<-|[]]. reflexivity.
  - cbn [runs] in Hin. destruct s as [|c t]; [destruct Hin|].
    destruct (has cs c); [|destruct Hin]. destruct Hin as [<-|[]]. reflexivity.
  - cbn [runs] in Hin. apply in_map_iff in Hin.
    destruct Hin as [s' [<- _]]. reflexivity.
  - apply andb_prop in Hfree. destruct Hfree as [H1 H2].
    apply runs_cat in Hin. destruct Hin as [e1 [Hin1 Hin2]].
    rewrite (IH2 H2 _ _ _ Hin2). exact (IH1 H1 _ _ _ Hin1).
  - apply andb_prop in Hfree. destruct Hfree as [H1 H2].
    cbn [runs] in Hin. apply in_app_or in Hin.
    destruct Hin as [Hin|Hin]; [exact (IH1 H1 _ _ _ Hin)|exact (IH2 H2 _ _ _ Hin)].
  - discriminate.
  - cbn [runs] in Hin. destruct (runs r s g) as [|e0 rest] eqn:E; [destruct Hin|].
    destruct Hin as [<-|[]]. cbn [snd]. apply (IH Hfree s g). rewrite E. now left.
  - cbn [runs] in Hin. destruct s as [|c [|c' t]]; try destruct Hin as [<-|[]];
      try reflexivity; try (now destruct Hin).
    destruct (N.eqb c LF); [|destruct Hin]. destruct Hin as [<-|[]]. reflexivity.
Qed.

(** What a repetition leaves has lost at least [lo] characters of the set. *)
Lemma skipn_tails_in (cs : cset) :
  forall (lo : nat) (s s' : str),
    In s' (skipn lo (tails_in cs s)) ->
    exists w, s = w ++ s' /\ Forall (fun c => has cs c = true) w /\ lo <= length w.
Proof.
  induction lo as [|lo IH]; intros s s' Hin.
  - cbn [skipn] in Hin. revert s' Hin. induction s as [|c t IHs]; intros s' Hin.
    + destruct Hin as [<-|[]]. exists []. repeat split; [constructor|lia].
    + cbn [tails_in] in Hin. destruct Hin as [<-|Hin].
      * exists []. repeat split; [constructor|lia].
      * destruct (has cs c) eqn:E; [|destruct Hin].
        destruct (IHs _ Hin) as [w [Hw [Hall _]]].
        exists (c :: w). cbn [app length]. rewrite <- Hw.
        repeat split; [constructor; assumption|lia].
  - destruct s as [|c t]; cbn [tails_in skipn] in Hin.
    + destruct lo; destruct Hin.
    + destruct (has cs c) eqn:E; [|destruct lo; destruct Hin].
      destruct (IH _ _ Hin) as [w [Hw [Hall Hlen]]].
      exists (c :: w). cbn [app length]. rewrite <- Hw.
      repeat split; [constructor; assumption|lia].
Qed.

Lemma consumed_app (w s' : str) : consumed (w ++ s') s' = w.
Proof.
  unfold consumed. rewrite length_app.
  replace (length w + length s' - length s') with (length w) by lia.
  rewrite firstn_app. replace (length w - length w) with 0 by lia.
  cbn [firstn]. rewrite app_nil_r. apply firstn_all.
Qed.

Lemma runs_rep (cs : cset) (lo : nat) (greedy : bool) (s : str) (g : groups)
    (e : str * groups) :
  In e (runs (Rep cs lo greedy) s g) ->
  snd e = g
  /\ exists w, s = w ++ fst e
               /\ Forall (fun c => has cs c = true) w /\ lo <= length w.
Proof.
  cbn [runs]. intros H. apply in_map_iff in H. destruct H as [s' [<- Hin]].
  cbn [fst snd]. split; [reflexivity|].
  apply skipn_tails_in. destruct greedy; [now apply in_rev|exact Hin].
Qed.

Lemma hd_error_In (A : Type) (l : list A) (x : A) : hd_error l = Some x -> In x l.
Proof. destruct l as [|a l]; [discriminate|]. intros H. injection H as <-. now left. Qed.

Section Scanning.

Variable r : regex.
Variable P : groups -> Prop.
Hypothesis runs_P : forall s e, In e (runs r s []) -> P (snd e).

Lemma match_at_groups (s : str) (nonempty : bool) (e : str * groups) :
  match_at r s nonempty = Some e -> P (snd e).
Proof.
  unfold match_at. intros H. apply (runs_P s).
  apply hd_error_In in H. apply filter_In in H. tauto.
Qed.

Lemma search_from_groups :
  forall (s : str) (nonempty : bool) (m : found),
    search_from r s nonempty = Some m -> P (captures m).
Proof.
  induction s as [|c t IH]; intros nonempty m; cbn [search_from].
  - destruct (match_at r [] nonempty) as [e|] eqn:E; [|discriminate].
    intros H. injection H as <-. cbn [captures]. eapply match_at_groups; eauto.
  - destruct (match_at r (c :: t) nonempty) as [e|] eqn:E.
    + intros H. injection H as <-. cbn [captures]. eapply match_at_groups; eauto.
    + destruct (search_from r t false) as [m'|] eqn:E'; [|discriminate].
      intros H. injection H as <-. cbn [captures]. eapply IH; eauto.
Qed.

Lemma scan_groups :
  forall (fuel : nat) (s : str) (nonempty : bool),
    Forall (fun m => P (captures m)) (scan fuel r s nonempty).
Proof.
  induction fuel as [|fuel IH]; intros s nonempty; cbn [scan]; [constructor|].
  destruct (search_from r s nonempty) as [m|] eqn:E; [|constructor].
  constructor; [eapply search_from_groups; eauto|apply IH].
Qed.

End Scanning.

End MatcherFacts.

Section SegmenterFacts.

Import ExtractDocuments.

(** The groups captured by a match of [article_pattern]. *)
Lemma article_pattern_groups (s : str) (e : str * groups) :
  In e (runs article_pattern s []) ->
  exists num body,
    snd e = [(2, body); (1, num)]
    /\ num <> [] /\ Forall (fun c => Unicode.isdecimal c = true) num.
Proof.
  unfold article_pattern. intros H.
  apply runs_cat in H. destruct H as [e1 [H1 H]].
  apply (runs_group_free marker eq_refl) in H1.
  apply runs_cat in H. destruct H as [e2 [H2 H]].
  apply runs_rep in H2. destruct H2 as [G2 _].
  apply runs_cat in H. destruct H as [e3 [H3 H]].
  apply runs_group in H3. destruct H3 as [e3' [H3 E3]].
  apply runs_rep in H3. destruct H3 as [G3 [num [Hnum [Hdig Hlen]]]].
  apply runs_cat in H. destruct H as [e4 [H4 H]].
  apply runs_rep in H4. destruct H4 as [G4 _].
  apply runs_cat in H. destruct H as [e5 [H5 H]].
  apply runs_group in H5. destruct H5 as [e5' [H5 E5]].
  apply runs_rep in H5. destruct H5 as [G5 _].
  apply runs_group_free in H; [|reflexivity].
  exists num, (consumed (fst e4) (fst e5')).
  rewrite H, E5. cbn [snd]. rewrite G5, G4, E3. cbn [snd].
  rewrite G3, G2, H1. rewrite Hnum at 1. rewrite consumed_app.
  split; [reflexivity|]. split.
  - intros E. subst num. cbn [length] in Hlen. lia.
  - revert Hdig. apply Forall_impl. intros c Hc.
    cbn [has existsb item_has] in Hc. now rewrite orb_false_r in Hc.
Qed.

Lemma article_units_wellformed :
  forall text : str,
    Forall
      (fun a =>
         number a <> []
         /\ Forall (fun c => Unicode.isdecimal c = true) (number a)
         /\ exists body,
              content a = py "Artículo " ++ number a ++ py ". " ++ body
              /\ strip body = body)
      (extract_article_with_context text).
Proof.
  intros text. unfold extract_article_with_context, finditer.
  apply Forall_forall. intros a Hin. apply in_map_iff in Hin.
  destruct Hin as [m [<- Hm]]. cbn [number content].
  pose proof (scan_groups article_pattern
                (fun g => exists num body,
                     g = [(2, body); (1, num)]
                     /\ num <> [] /\ Forall (fun c => Unicode.isdecimal c = true) num)
                article_pattern_groups
                (2 * length text + 2) text false) as Hall.
  rewrite Forall_forall in Hall. destruct (Hall m Hm) as [num [body [Hg [Hne Hdig]]]].
  unfold group_text, group. rewrite Hg. cbn [lookup Nat.eqb].
  split; [exact Hne|]. split; [exact Hdig|].
  exists (strip body). split; [reflexivity|apply strip_idempotent].
Qed.

(** The number of every extracted article is a non-empty string of decimal
    digits, and its content is the heading rebuilt from that number,
    followed by a body without whitespace at either end. *)
Theorem article_units_shape :
  forall text : str,
    Forall
      (fun a =>
         number a <> []
         /\ Forall (fun c => Unicode.isdecimal c = true) (number a)
         /\ exists body,
              content a = py "Artículo " ++ number a ++ py ". " ++ body
              /\ strip body = body)
      (extract_article_with_context text).
Proof. exact article_units_wellformed. Qed.

End SegmenterFacts.

(* ================================================================== *)
(** * Further properties of the document builder *)
(* ================================================================== *)

Section PageTexts.

Import ExtractDocuments.

(** What line 92 appends for a page. *)
Definition page_block (kt : N * str) : str :=
  [LF] ++ py "[PÁGINA " ++ Str.of_N (fst kt) ++ py "]" ++ [LF] ++ snd kt.

Lemma read_pages_from :
  forall (pages : list page) (i : N) (full_text : str) (page_texts : list (N * str))
         (full_text' : str) (page_texts' : list (N * str)),
    read_pages i pages full_text page_texts = Return (full_text', page_texts') ->
    exists new,
      page_texts' = page_texts ++ new
      /\ full_text' = full_text ++ flat_map page_block new
      /\ (forall k t,
            In (k, t) new <->
            exists j, k = (i + N.of_nat j)%N
                      /\ nth_error pages j = Some (Return (Some t)) /\ t <> [])
      /\ StronglySorted N.lt (map fst new).
Proof.
  induction pages as [|p pages IH]; intros i ft pt ft' pt' H.
  - cbn [read_pages] in H. injection H as <- <-. exists [].
    rewrite !app_nil_r. repeat split; try constructor.
    + intros [].
    + intros [j [_ [Hj _]]]. destruct j; discriminate.
  - assert (Hskip :
      read_pages (i + 1) pages ft pt = Return (ft', pt') ->
      (forall t, p = Return (Some t) -> t = []) ->
      exists new,
        pt' = pt ++ new /\ ft' = ft ++ flat_map page_block new
        /\ (forall k t,
              In (k, t) new <->
              exists j, k = (i + N.of_nat j)%N
                        /\ nth_error (p :: pages) j = Some (Return (Some t)) /\ t <> [])
        /\ StronglySorted N.lt (map fst new)).
    { intros Hr Hp. destruct (IH _ _ _ _ _ Hr) as [new [E1 [E2 [Hin Hs]]]].
      exists new. repeat split; try assumption.
      - intros Hk. apply Hin in Hk. destruct Hk as [j [Hk [Hj Ht]]].
        exists (S j). split; [lia|]. split; assumption.
      - intros [j [Hk [Hj Ht]]]. apply Hin. destruct j as [|j].
        + cbn [nth_error] in Hj. injection Hj as Hj. now destruct (Ht (Hp _ Hj)).
        + exists j. split; [lia|]. split; assumption. }
    cbn [read_pages] in H. destruct p as [[[|c t0]|]|e].
    + apply Hskip; [exact H|]. intros t E. now injection E as <-.
    + destruct (IH _ _ _ _ _ H) as [new [E1 [E2 [Hin Hs]]]].
      exists ((i, c :: t0) :: new). repeat split.
      * rewrite E1. now rewrite <- app_assoc.
      * rewrite E2. cbn [flat_map]. unfold page_block at 2. cbn [fst snd].
        now rewrite <- !app_assoc.
      * intros [Hk|Hk].
        -- injection Hk as <- <-. exists 0. repeat split; [lia|discriminate].
        -- apply Hin in Hk. destruct Hk as [j [Hk [Hj Ht]]].
           exists (S j). split; [lia|]. split; assumption.
      * intros [j [Hk [Hj Ht]]]. destruct j as [|j].
        -- left. cbn [nth_error] in Hj. injection Hj as <-. f_equal. lia.
        -- right. apply Hin. exists j. split; [lia|]. split; assumption.
      * cbn [map fst]. constructor; [exact Hs|].
        apply Forall_forall. intros k Hk. apply in_map_iff in Hk.
        destruct Hk as [[k' t'] [<- Hk]]. apply Hin in Hk.
        destruct Hk as [j [Hk _]]. cbn [fst]. lia.
    + apply Hskip; [exact H|]. intros t E. discriminate.
    + discriminate.
Qed.

Lemma read_pages_cases :
  forall pages : list page,
    match read_pages 1 pages [] [] with
    | Return (full_text, page_texts) =>
        (forall k t,
           In (k, t) page_texts <->
           exists j, k = N.of_nat (S j)
                     /\ nth_error pages j = Some (Return (Some t)) /\ t <> [])
        /\ StronglySorted N.lt (map fst page_texts)
        /\ full_text = flat_map page_block page_texts
    | Raise e => In (Raise e) pages
    end.
Proof.
  intros pages. destruct (read_pages 1 pages [] []) as [[ft pt]|e] eqn:E.
  - destruct (read_pages_from _ _ _ _ E) as [new [E1 [E2 [Hin Hs]]]].
    cbn [app] in E1, E2. subst pt ft. repeat split; try assumption.
    + intros Hk. apply Hin in Hk. destruct Hk as [j [Hk H]].
      exists j. split; [lia|exact H].
    + intros [j [Hk H]]. apply Hin. exists j. split; [lia|exact H].
  - clear - E. revert E. generalize 1%N, (@nil char), (@nil (N * str)).
    induction pages as [|p pages IH]; intros i ft pt E; [discriminate|].
    cbn [read_pages] in E. destruct p as [[[|c t0]|]|e0].
    + right. eapply IH; eauto.
    + right. eapply IH; eauto.
    + right. eapply IH; eauto.
    + injection E as <-. now left.
Qed.

(** The pages of a file are numbered from 1 by their position, a page
    without text still counting: [page_texts] holds, in increasing order of
    page number, exactly the pages that have text, and [full_text] is the
    concatenation of their marked texts.  Reading fails only when a page
    cannot be extracted, with that page's exception. *)
Theorem read_pages_numbering :
  forall pages : list page,
    match read_pages 1 pages [] [] with
    | Return (full_text, page_texts) =>
        (forall k t,
           In (k, t) page_texts <->
           exists j, k = N.of_nat (S j)
                     /\ nth_error pages j = Some (Return (Some t)) /\ t <> [])
        /\ StronglySorted N.lt (map fst page_texts)
        /\ full_text = flat_map page_block page_texts
    | Raise e => In (Raise e) pages
    end.
Proof. exact read_pages_cases. Qed.

End PageTexts.

Section PageLookup.

Import ExtractDocuments.

(** The first page, in page order, whose cleaned text contains [text]. *)
Definition first_page_with (text : str) (page_texts : list (N * str))
  : option (N * str) :=
  find (fun kt => contains text (clean_text (snd kt))) page_texts.

(** A chunk is attributed to the first page whose cleaned text contains
    it, and to no page ([None]) when there is none. *)
Theorem chunk_page_is_first_match :
  forall (page_texts : list (N * str)) (chunk : str),
    chunk_page VNone page_texts chunk
    = match first_page_with chunk page_texts with
      | Some kt => VInt (fst kt)
      | None => VNone
      end.
Proof.
  intros page_texts chunk. unfold first_page_with. generalize VNone.
  induction page_texts as [|[k t] items IH]; intros v; [reflexivity|].
  cbn [chunk_page find fst snd].
  destruct (contains chunk (clean_text t)); [reflexivity|apply IH].
Qed.

(** When some page's cleaned text contains an article's content, the
    article is attributed to the first such page. *)
Theorem article_page_is_first_match :
  forall (page_texts : list (N * str)) (article_content : str) (kt : N * str),
    first_page_with article_content page_texts = Some kt ->
    article_page VNone page_texts article_content = VInt (fst kt).
Proof.
  intros page_texts c kt. unfold first_page_with. generalize VNone.
  induction page_texts as [|[k t] items IH]; intros v H; [discriminate|].
  cbn [article_page find fst snd] in *.
  destruct (contains c (clean_text t)).
  - injection H as <-. reflexivity.
  - now apply IH.
Qed.

Lemma article_page_is_first_match_witness :
  article_page VNone
    [(1%N, py "Convocatoria 2024"); (2%N, py "Art. 3. Texto");
     (3%N, py "Artículo 3. Plazo de diez días."); (4%N, py "Artículo 3. Plazo de diez días.")]
    (py "Artículo 3. Plazo de diez días.")
  = VInt 3.
Proof.
  apply (@article_page_is_first_match _ _ (3%N, py "Artículo 3. Plazo de diez días.")).
  vm_compute. reflexivity.
Defined.

(** Either loop yields [None] or the number of a page that has text. *)
Lemma article_page_range :
  forall (items : list (N * str)) (v : value) (c : str),
    article_page v items c = v
    \/ exists k t, In (k, t) items /\ article_page v items c = VInt k.
Proof.
  induction items as [|[k t] items IH]; intros v c; [now left|].
  cbn [article_page]. right. destruct (contains c (clean_text t)).
  - exists k, t. split; [now left|reflexivity].
  - destruct (IH (VInt k) c) as [E|[k' [t' [Hin E]]]].
    + exists k, t. split; [now left|exact E].
    + exists k', t'. split; [now right|exact E].
Qed.

Lemma chunk_page_range :
  forall (items : list (N * str)) (v : value) (c : str),
    chunk_page v items c = v
    \/ exists k t, In (k, t) items /\ chunk_page v items c = VInt k.
Proof.
  induction items as [|[k t] items IH]; intros v c; [now left|].
  cbn [chunk_page]. destruct (contains c (clean_text t)).
  - right. exists k, t. split; [now left|reflexivity].
  - destruct (IH v c) as [E|[k' [t' [Hin E]]]]; [now left|].
    right. exists k', t'. split; [now right|exact E].
Qed.

End PageLookup.

Section BuiltDocuments.

Import ExtractDocuments.

Variable split_text : str -> list str.
Variable lower : str -> str.
Variable folder_path : str.

(** The metadata every document of a file starts from (lines 104-107). *)
Definition base_metadata (f : entry) : dict :=
  [("source", VStr (filename f));
   ("file_path", VStr (path_join folder_path (filename f)))]%string.

(** Where a document of the result comes from. *)
Lemma built_document_origin (listing : list entry) (d : Document) :
  In d (flat_map (file_documents split_text folder_path) (pdf_files lower listing)) ->
  exists f pages full_text page_texts,
    In f listing
    /\ endswith (lower (filename f)) (py ".pdf") = true
    /\ opened f = Return pages
    /\ read_pages 1 pages [] [] = Return (full_text, page_texts)
    /\ (In d (article_documents (base_metadata f) page_texts
                (extract_article_with_context (clean_text full_text)))
        \/ exists chunks,
             In d (general_documents (base_metadata f) page_texts chunks)).
Proof.
  intros Hin. apply in_flat_map in Hin. destruct Hin as [f [Hf Hd]].
  unfold pdf_files in Hf. apply filter_In in Hf. destruct Hf as [Hf Hpdf].
  unfold file_documents, file_result, process_pdf in Hd.
  destruct (opened f) as [pages|e] eqn:Eo; [|destruct Hd].
  destruct (read_pages 1 pages [] []) as [[full_text page_texts]|e] eqn:Er;
    [|destruct Hd].
  exists f, pages, full_text, page_texts. repeat split; try assumption.
  apply in_app_or in Hd. destruct Hd as [Hd|Hd]; [now left|right; eauto].
Qed.

Lemma article_document_metadata (base : dict) (page_texts : list (N * str))
    (articles : list article) (d : Document) :
  In d (article_documents base page_texts articles) ->
  exists a,
    In a articles
    /\ page_content d = content a
    /\ metadata d
       = dict_update base
           [("content_type", VStr (py "article"));
            ("article_number", VStr (number a));
            ("page", article_page VNone page_texts (content a))]%string.
Proof.
  unfold article_documents. intros H. apply in_map_iff in H.
  destruct H as [a [<- Ha]]. exists a. repeat split. exact Ha.
Qed.

Lemma general_document_metadata (base : dict) (page_texts : list (N * str))
    (chunks : list str) (d : Document) :
  In d (general_documents base page_texts chunks) ->
  100 <= length (strip (page_content d))
  /\ metadata d
     = dict_update base
         [("content_type", VStr (py "general"));
          ("page", chunk_page VNone page_texts (page_content d))]%string.
Proof.
  unfold general_documents. intros H. apply in_flat_map in H.
  destruct H as [chunk [_ H]].
  destruct (length (strip chunk) <? 100) eqn:E; [destruct H|].
  destruct H as [<-|[]]. cbn [page_content metadata]. split; [|reflexivity].
  now apply Nat.ltb_ge in E.
Qed.

(** Every document of the result comes from a listed file whose lowered
    name ends in ".pdf"; its source is that name and its file path the
    folder path joined with it; it is tagged article and carries an article
    number made of decimal digits, or it is tagged general and carries no
    article number. *)
Theorem built_documents_metadata :
  forall (listing : list entry) (log : list log_record),
  exists docs log',
    extract_text_from_folder split_text lower folder_path listing log
    = (Return docs, log')
    /\ Forall
         (fun d =>
            exists f,
              In f listing
              /\ endswith (lower (filename f)) (py ".pdf") = true
              /\ dict_get (metadata d) "source" = Some (VStr (filename f))
              /\ dict_get (metadata d) "file_path"
                 = Some (VStr (path_join folder_path (filename f)))
              /\ ((dict_get (metadata d) "content_type" = Some (VStr (py "article"))
                   /\ exists num,
                        dict_get (metadata d) "article_number" = Some (VStr num)
                        /\ num <> []
                        /\ Forall (fun c => Unicode.isdecimal c = true) num)
                  \/ (dict_get (metadata d) "content_type" = Some (VStr (py "general"))
                      /\ dict_get (metadata d) "article_number" = None)))
         docs.
Proof.
  intros listing log. unfold extract_text_from_folder.
  rewrite process_files_spec. cbn [app]. eexists. eexists.
  split; [reflexivity|]. apply Forall_forall. intros d Hd.
  apply built_document_origin in Hd.
  destruct Hd as [f [pages [ft [pt [Hf [Hpdf [_ [_ Hd]]]]]]]].
  exists f. split; [exact Hf|]. split; [exact Hpdf|].
  destruct Hd as [Hd|[chunks Hd]].
  - apply article_document_metadata in Hd. destruct Hd as [a [Ha [_ Hm]]].
    rewrite Hm. unfold base_metadata.
    split; [reflexivity|]. split; [reflexivity|]. left.
    split; [reflexivity|]. exists (number a). split; [reflexivity|].
    pose proof (article_units_wellformed (clean_text ft)) as Hshape.
    rewrite Forall_forall in Hshape. destruct (Hshape a Ha) as [Hne [Hdig _]].
    split; assumption.
  - apply general_document_metadata in Hd. destruct Hd as [_ Hm].
    rewrite Hm. unfold base_metadata.
    split; [reflexivity|]. split; [reflexivity|]. right.
    split; reflexivity.
Qed.

(** Where a document of one file comes from. *)
Lemma file_document_origin (f : entry) (d : Document) :
  In d (file_documents split_text folder_path f) ->
  exists pages full_text page_texts,
    opened f = Return pages
    /\ read_pages 1 pages [] [] = Return (full_text, page_texts)
    /\ (In d (article_documents (base_metadata f) page_texts
                (extract_article_with_context (clean_text full_text)))
        \/ exists chunks,
             In d (general_documents (base_metadata f) page_texts chunks)).
Proof.
  intros Hd. unfold file_documents, file_result, process_pdf in Hd.
  destruct (opened f) as [pages|e] eqn:Eo; [|destruct Hd].
  destruct (read_pages 1 pages [] []) as [[full_text page_texts]|e] eqn:Er;
    [|destruct Hd].
  exists pages, full_text, page_texts. split; [reflexivity|]. split; [exact Er|].
  apply in_app_or in Hd. destruct Hd as [Hd|Hd]; [now left|right; eauto].
Qed.

(** The result is the documents of each listed PDF file in turn, and the
    page recorded for a document of file [f], which carries [f]'s name as
    its source, is [None] or the 1-based position of a page of [f] itself
    that has text. *)
Theorem built_documents_page :
  forall (listing : list entry) (log : list log_record),
  exists log',
    extract_text_from_folder split_text lower folder_path listing log
    = (Return (flat_map (file_documents split_text folder_path)
                 (pdf_files lower listing)),
       log')
    /\ forall f,
         In f (pdf_files lower listing) ->
         Forall
           (fun d =>
              dict_get (metadata d) "source" = Some (VStr (filename f))
              /\ (dict_get (metadata d) "page" = Some VNone
                  \/ exists pages j t,
                       opened f = Return pages
                       /\ nth_error pages j = Some (Return (Some t))
                       /\ t <> []
                       /\ dict_get (metadata d) "page"
                          = Some (VInt (N.of_nat (S j)))))
           (file_documents split_text folder_path f).
Proof.
  intros listing log. unfold extract_text_from_folder.
  rewrite process_files_spec. cbn [app]. eexists.
  split; [reflexivity|]. intros f _. apply Forall_forall. intros d Hd.
  apply file_document_origin in Hd.
  destruct Hd as [pages [ft [pt [Ho [Hr Hd]]]]].
  pose proof (read_pages_cases pages) as Hnum. rewrite Hr in Hnum.
  destruct Hnum as [Hkeys _].
  assert (Hpage : forall v,
            v = VNone \/ (exists k t, In (k, t) pt /\ v = VInt k) ->
            dict_get (metadata d) "page" = Some v ->
            dict_get (metadata d) "page" = Some VNone
            \/ exists pages j t,
                 opened f = Return pages
                 /\ nth_error pages j = Some (Return (Some t)) /\ t <> []
                 /\ dict_get (metadata d) "page" = Some (VInt (N.of_nat (S j)))).
  { intros v [->|[k [t [Hk ->]]]] Hv; [now left|right].
    apply Hkeys in Hk. destruct Hk as [j [-> [Hj Ht]]].
    exists pages, j, t. repeat split; assumption. }
  destruct Hd as [Hd|[chunks Hd]].
  - apply article_document_metadata in Hd. destruct Hd as [a [_ [_ Hm]]].
    split; [rewrite Hm; reflexivity|].
    apply (Hpage (article_page VNone pt (content a))).
    + destruct (article_page_range pt VNone (content a)) as [E|E]; auto.
    + rewrite Hm. reflexivity.
  - apply general_document_metadata in Hd. destruct Hd as [_ Hm].
    split; [rewrite Hm; reflexivity|].
    apply (Hpage (chunk_page VNone pt (page_content d))).
    + destruct (chunk_page_range pt VNone (page_content d)) as [E|E]; auto.
    + rewrite Hm. reflexivity.
Qed.

End BuiltDocuments.

Section BuiltDocumentsContent.

Import ExtractDocuments.

Variable split_text : str -> list str.
Variable lower : str -> str.
Variable folder_path : str.

Lemma lstrip_app_nonspace (x : str) (c : char) :
  Unicode.isspace c = false -> lstrip (x ++ [c]) <> [].
Proof.
  intros Hc. induction x as [|a x IH]; cbn [app lstrip].
  - rewrite Hc. discriminate.
  - destruct (Unicode.isspace a); [exact IH|discriminate].
Qed.

(** Trimming keeps a text that starts with a character other than
    whitespace non-empty. *)
Lemma strip_nonblank (c : char) (t : str) :
  Unicode.isspace c = false -> strip (c :: t) <> [].
Proof.
  intros Hc. unfold strip. cbn [lstrip]. rewrite Hc. unfold rstrip.
  cbn [rev]. intros E. apply (f_equal (@rev char)) in E.
  rewrite rev_involutive in E. cbn [rev] in E.
  exact (@lstrip_app_nonspace (rev t) c Hc E).
Qed.

Lemma heading_head : py "Artículo " = 65%N :: py "rtículo ".
Proof. vm_compute. reflexivity. Qed.

(** No stored document is blank: trimmed, its content is not empty. *)
Theorem built_documents_never_blank :
  forall (listing : list entry) (log : list log_record),
  exists docs log',
    extract_text_from_folder split_text lower folder_path listing log
    = (Return docs, log')
    /\ Forall (fun d => strip (page_content d) <> []) docs.
Proof.
  intros listing log. unfold extract_text_from_folder.
  rewrite process_files_spec. cbn [app]. eexists. eexists.
  split; [reflexivity|]. apply Forall_forall. intros d Hd.
  apply built_document_origin in Hd.
  destruct Hd as [f [pages [ft [pt [_ [_ [_ [_ Hd]]]]]]]].
  destruct Hd as [Hd|[chunks Hd]].
  - apply article_document_metadata in Hd. destruct Hd as [a [Ha [Hc _]]].
    rewrite Hc.
    pose proof (article_units_wellformed (clean_text ft)) as Hshape.
    rewrite Forall_forall in Hshape.
    destruct (Hshape a Ha) as [_ [_ [body [Hcontent _]]]].
    rewrite Hcontent, heading_head. cbn [app]. now apply strip_nonblank.
  - apply general_document_metadata in Hd. destruct Hd as [Hlen _].
    intros E. rewrite E in Hlen. cbn [length] in Hlen. lia.
Qed.

Lemma article_tag_is_article (d : Document) :
  dict_get (metadata d) "content_type" = Some (VStr (py "article")) ->
  QueryHandler.is_article d = true.
Proof. unfold QueryHandler.is_article. intros ->. vm_compute. reflexivity. Qed.

Lemma general_tag_not_article (d : Document) :
  dict_get (metadata d) "content_type" = Some (VStr (py "general")) ->
  QueryHandler.is_article d = false.
Proof. unfold QueryHandler.is_article. intros ->. vm_compute. reflexivity. Qed.

(** The documents of a file are its articles followed by its chunks, and
    the retrieval filter's test [is_article] tells the two apart exactly
    as the builder tagged them. *)
Theorem file_documents_articles_first :
  forall f : entry,
  exists articles chunks,
    file_documents split_text folder_path f = articles ++ chunks
    /\ Forall (fun d => QueryHandler.is_article d = true) articles
    /\ Forall (fun d => QueryHandler.is_article d = false
                        /\ 100 <= length (strip (page_content d))) chunks.
Proof.
  intros f. unfold file_documents, file_result, process_pdf.
  destruct (opened f) as [pages|e]; [|exists [], []; repeat split; constructor].
  destruct (read_pages 1 pages [] []) as [[ft pt]|e];
    [|exists [], []; repeat split; constructor].
  eexists. eexists. split; [reflexivity|]. split.
  - apply Forall_forall. intros d Hd. apply article_tag_is_article.
    apply article_document_metadata in Hd. destruct Hd as [a [_ [_ Hm]]].
    rewrite Hm. reflexivity.
  - apply Forall_forall. intros d Hd.
    apply general_document_metadata in Hd. destruct Hd as [Hlen Hm].
    split; [|exact Hlen]. apply general_tag_not_article. rewrite Hm. reflexivity.
Qed.

End BuiltDocumentsContent.

(* ================================================================== *)
(** * Further properties of the index manager *)
(* ================================================================== *)

Section IndexFacts.

Import IndexManager.

Variable FAISS : Type.
Variable Embeddings : Type.
Variable OpenAIEmbeddings : outcome Embeddings.
Variable from_documents : list Document -> Embeddings -> outcome FAISS.
Variable add_documents : FAISS -> list Document -> outcome unit.
Variable save_local : FAISS -> str -> outcome unit.
Variable load_local : str -> Embeddings -> outcome FAISS.

(** What the engine answers when asked to load the index saved at [path]. *)
Definition engine_load (path : str) : outcome FAISS :=
  match OpenAIEmbeddings with
  | Return embeddings => load_local path embeddings
  | Raise e => Raise e
  end.

Lemma create_index_some :
  forall (documents : list Document) (log : list log_record) (index : FAISS),
    fst (create_index OpenAIEmbeddings from_documents documents log)
    = Return (Some index)
    <-> documents <> []
        /\ engine_build OpenAIEmbeddings from_documents documents = Return index.
Proof.
  intros documents log index. destruct documents as [|d documents].
  - unfold create_index, bind, logger_log, ret. rewrite logger_bound.
    cbn [fst]. split; [discriminate|]. intros [H _]. now destruct H.
  - unfold create_index, engine_build, try_except, bind, call, ret.
    destruct OpenAIEmbeddings as [embeddings|e].
    + destruct (from_documents (d :: documents) embeddings) as [i|e].
      * cbn [fst]. split.
        -- intros H. injection H as <-. split; [discriminate|reflexivity].
        -- intros [_ H]. now injection H as <-.
      * unfold logger_log. rewrite logger_bound. cbn [fst]. split.
        -- discriminate.
        -- intros [_ H]. discriminate.
    + unfold logger_log. rewrite logger_bound. cbn [fst]. split.
      * discriminate.
      * intros [_ H]. discriminate.
Qed.

(** [create_index] returns a handle exactly when the list is not empty and
    the engine builds an index from it, and then it returns that index. *)
Theorem create_index_handle :
  forall (documents : list Document) (log : list log_record) (index : FAISS),
    fst (create_index OpenAIEmbeddings from_documents documents log)
    = Return (Some index)
    <-> documents <> []
        /\ engine_build OpenAIEmbeddings from_documents documents = Return index.
Proof. exact create_index_some. Qed.

(** [update_index] never drops or replaces an existing index: whatever the
    new documents and whatever the engine does, the handle passed in is the
    handle returned; with no new document nothing is logged. *)
Theorem update_index_keeps_handle :
  forall (index : FAISS) (new_documents : list Document) (log : list log_record),
  exists log',
    update_index OpenAIEmbeddings from_documents add_documents
      (Some index) new_documents log
    = (Return (Some index), log')
    /\ (new_documents = [] -> log' = log).
Proof.
  intros index new_documents log. destruct new_documents as [|d new_documents].
  - exists log. split; reflexivity.
  - unfold update_index, try_except, bind, call, ret.
    destruct (add_documents index (d :: new_documents)) as [[]|e].
    + exists log. split; [reflexivity|discriminate].
    + unfold logger_log. rewrite logger_bound. eexists.
      split; [reflexivity|discriminate].
Qed.

(** Without an existing index, [update_index] returns a handle exactly
    when the list of new documents is not empty and the engine builds an
    index from it, and then it returns that index. *)
Theorem update_index_without_handle :
  forall (new_documents : list Document) (log : list log_record) (index : FAISS),
    fst (update_index OpenAIEmbeddings from_documents add_documents
           None new_documents log)
    = Return (Some index)
    <-> new_documents <> []
        /\ engine_build OpenAIEmbeddings from_documents new_documents = Return index.
Proof.
  intros new_documents log index. destruct new_documents as [|d new_documents].
  - cbn [update_index ret fst]. split; [discriminate|].
    intros [H _]. now destruct H.
  - cbn [update_index]. apply create_index_some.
Qed.

(** [save_index] never raises: it returns [True] exactly when there is an
    index and the engine saves it, in which case no warning or error is
    logged; otherwise it returns [False] after logging one record. *)
Theorem save_index_result :
  forall (index : option FAISS) (path : str) (log : list log_record),
  exists saved log',
    save_index save_local index path log = (Return saved, log')
    /\ (saved = true <-> exists i, index = Some i /\ save_local i path = Return tt)
    /\ (saved = true -> log' = log)
    /\ (saved = false -> exists record, log' = log ++ [record]).
Proof.
  intros index path log. destruct index as [i|].
  - unfold save_index, try_except, bind, call, ret.
    destruct (save_local i path) as [[]|e] eqn:E.
    + exists true, log. repeat split; try discriminate. eauto.
    + unfold logger_log. rewrite logger_bound. eexists false, _.
      split; [reflexivity|]. repeat split; try discriminate.
      * intros [i' [Hi Hs]]. injection Hi as <-. rewrite E in Hs. discriminate.
      * eauto.
  - unfold save_index, bind, logger_log, ret. rewrite logger_bound.
    eexists false, _. split; [reflexivity|]. repeat split; try discriminate.
    + intros [i [Hi _]]. discriminate.
    + eauto.
Qed.

Lemma load_index_cases (path : str) (log : list log_record) :
  load_index OpenAIEmbeddings load_local path log
  = match engine_load path with
    | Return index => (Return (Some index), log)
    | Raise e =>
        (Return None,
         log ++ [{| record_level := ERROR;
                    record_text := py "Index load failed: " ++ exn_str e |}])
    end.
Proof.
  unfold load_index, engine_load, try_except, bind, call, ret.
  destruct OpenAIEmbeddings as [embeddings|e].
  - destruct (load_local path embeddings) as [index|e]; [reflexivity|].
    unfold logger_log. now rewrite logger_bound.
  - unfold logger_log. now rewrite logger_bound.
Qed.

(** [load_index] never raises: it returns a handle exactly when the engine
    loads an index, and then that index without logging a warning or an
    error; when the engine fails it returns [None] after logging one ERROR
    record that carries the failure's message. *)
Theorem load_index_result :
  forall (path : str) (log : list log_record),
  exists handle log',
    load_index OpenAIEmbeddings load_local path log = (Return handle, log')
    /\ (forall index, handle = Some index <-> engine_load path = Return index)
    /\ (forall index, handle = Some index -> log' = log)
    /\ (forall e,
          engine_load path = Raise e ->
          handle = None
          /\ log' = log ++ [{| record_level := ERROR;
                               record_text := py "Index load failed: " ++ exn_str e |}]).
Proof.
  intros path log. rewrite load_index_cases.
  destruct (engine_load path) as [index|e].
  - exists (Some index), log. split; [reflexivity|]. split; [|split].
    + intros i. split; intros H; injection H as <-; reflexivity.
    + reflexivity.
    + intros e H. discriminate.
  - eexists None, _. split; [reflexivity|]. split; [|split].
    + intros i. split; discriminate.
    + intros i H. discriminate.
    + intros e' H. injection H as <-. split; reflexivity.
Qed.

Lemma save_index_returns (index : option FAISS) (path : str) (log : list log_record) :
  exists saved log', save_index save_local index path log = (Return saved, log').
Proof.
  destruct index as [i|].
  - unfold save_index, try_except, bind, call, ret.
    destruct (save_local i path) as [[]|e]; [eauto|].
    unfold logger_log. rewrite logger_bound. eauto.
  - unfold save_index, bind, logger_log, ret. rewrite logger_bound. eauto.
Qed.

End IndexFacts.

(* ================================================================== *)
(** * Initialising the index (main.py, lines 30-49) *)
(* ================================================================== *)

Section StartUp.

Import ExtractDocuments IndexManager Main.

Variable split_text : str -> list str.
Variable lower : str -> str.
Variable FAISS : Type.
Variable Embeddings : Type.
Variable OpenAIEmbeddings : outcome Embeddings.
Variable from_documents : list Document -> Embeddings -> outcome FAISS.
Variable save_local : FAISS -> str -> outcome unit.
Variable load_local : str -> Embeddings -> outcome FAISS.
Variable index_exists : bool.
Variable makedirs : outcome unit.

(** The index found on disk, if there is one and the engine loads it. *)
Definition saved_index : option FAISS :=
  if index_exists
  then match engine_load OpenAIEmbeddings load_local INDEX_PATH with
       | Return index => Some index
       | Raise _ => None
       end
  else None.

(** The index built from a collection of documents, if it is not empty and
    the engine builds one. *)
Definition built_index (documents : list Document) : option FAISS :=
  match documents with
  | [] => None
  | _ =>
      match engine_build OpenAIEmbeddings from_documents documents with
      | Return index => Some index
      | Raise _ => None
      end
  end.

Lemma saved_index_loaded (log : list log_record) :
  exists log',
    (if index_exists
     then load_index OpenAIEmbeddings load_local INDEX_PATH
     else ret None) log
    = (Return saved_index, log').
Proof.
  unfold saved_index. destruct index_exists; [|unfold ret; eauto].
  rewrite load_index_cases.
  destruct (engine_load OpenAIEmbeddings load_local INDEX_PATH); eauto.
Qed.

Lemma built_index_created (documents : list Document) (log : list log_record) :
  documents <> [] ->
  exists log',
    create_index OpenAIEmbeddings from_documents documents log
    = (Return (built_index documents), log').
Proof.
  intros Hne. destruct documents as [|d documents]; [now destruct Hne|].
  unfold create_index, built_index, engine_build, try_except, bind, call, ret.
  destruct OpenAIEmbeddings as [embeddings|e].
  - destruct (from_documents (d :: documents) embeddings) as [i|e]; [eauto|].
    unfold logger_log. rewrite logger_bound. eauto.
  - unfold logger_log. rewrite logger_bound. eauto.
Qed.

(** When the documents folder can be listed, [initialize_index] returns
    the saved index if there is one and it loads; otherwise the index built
    from the folder's documents, if there are any and the engine builds
    one; otherwise [None].  It does not raise, and whether the new index
    can be saved makes no difference to what is returned. *)
Theorem initialize_index_result :
  forall (entries : list entry) (log : list log_record),
    let documents :=
      flat_map (file_documents split_text FOLDER_PATH) (pdf_files lower entries) in
    fst (initialize_index split_text lower OpenAIEmbeddings from_documents
           save_local load_local index_exists (Present (Return entries)) makedirs log)
    = Return match saved_index with
             | Some index => Some index
             | None => built_index documents
             end.
Proof.
  intros entries log documents. unfold initialize_index.
  unfold bind at 1. destruct (saved_index_loaded log) as [log1 ->].
  destruct saved_index as [index|]; [reflexivity|].
  unfold bind at 1. unfold load_documents. unfold bind at 1. unfold call.
  unfold extract_text_from_folder. rewrite process_files_spec. cbn [app].
  fold documents. destruct documents as [|d ds] eqn:E; [reflexivity|].
  unfold bind at 1.
  destruct (@built_index_created (d :: ds) (log1 ++ flat_map (file_errors split_text FOLDER_PATH) (pdf_files lower entries)))
    as [log2 ->]; [discriminate|].
  destruct (built_index (d :: ds)) as [i|]; [|reflexivity].
  unfold bind.
  destruct (save_index_returns save_local (Some i) INDEX_PATH log2) as [saved [log3 ->]].
  reflexivity.
Qed.

(** When there is neither a saved index that loads nor a documents folder,
    the folder is created and, being empty, gives no index; a failure to
    create it is the only thing the call lets through. *)
Theorem initialize_index_without_folder :
  forall log : list log_record,
    saved_index = None ->
    fst (initialize_index split_text lower OpenAIEmbeddings from_documents
           save_local load_local index_exists Missing makedirs log)
    = match makedirs with
      | Return _ => Return None
      | Raise e => Raise e
      end.
Proof.
  intros log Hsaved. unfold initialize_index.
  unfold bind at 1. destruct (saved_index_loaded log) as [log1 ->].
  rewrite Hsaved. unfold bind at 1. unfold load_documents. unfold bind at 1.
  unfold call. destruct makedirs as [[]|e]; reflexivity.
Qed.

End StartUp.

Lemma initialize_index_without_folder_witness :
  fst (Main.initialize_index (fun text => [text]) (fun s => s)
         (Return tt) (fun _ (_ : unit) => Return tt)
         (fun (_ : unit) _ => Return tt)
         (fun _ (_ : unit) => Raise (Exception "RuntimeError" (py "could not open faiss_index")))
         true Main.Missing (Return tt) [])
  = Return None.
Proof.
  apply (@initialize_index_without_folder (fun text => [text]) (fun s => s)
           unit unit (Return tt) (fun _ _ => Return tt) (fun _ _ => Return tt)
           (fun _ _ => Raise (Exception "RuntimeError" (py "could not open faiss_index")))
           true (Return tt) []).
  reflexivity.
Defined.

(* ================================================================== *)
(** * Further properties of the query pipeline *)
(* ================================================================== *)

Section LiteralPrefix.

(** A pattern that begins with a literal cannot match in a text where the
    literal does not occur. *)
Variable w : str.
Variable rest : regex.

Lemma literal_prefix_no_match (s : str) (nonempty : bool) :
  startswith s w = false -> match_at (Cat (Lit w) rest) s nonempty = None.
Proof. intros H. unfold match_at. cbn [runs]. now rewrite H. Qed.

Lemma literal_prefix_no_search :
  forall (s : str) (nonempty : bool),
    contains w s = false -> search_from (Cat (Lit w) rest) s nonempty = None.
Proof.
  induction s as [|c s IH]; intros nonempty H; cbn [search_from].
  - rewrite literal_prefix_no_match; auto using contains_nil_false.
  - apply contains_cons_false in H. destruct H as [H1 H2].
    rewrite literal_prefix_no_match by exact H1. now rewrite IH.
Qed.

Lemma literal_prefix_no_sub (repl s : str) :
  contains w s = false -> sub (Cat (Lit w) rest) repl s = s.
Proof.
  intros H. unfold sub, finditer.
  replace (2 * length s + 2) with (S (2 * length s + 1)) by lia.
  cbn [scan]. now rewrite literal_prefix_no_search.
Qed.

End LiteralPrefix.

Section ContextFacts.

Import QueryHandler.

(** The header of a context entry for a document whose source is [source]
    and whose page is not known. *)
Definition header_without_page (doc : Document) : str :=
  py "[Fuente: "
  ++ value_str match dict_get (metadata doc) "source" with
               | Some v => v
               | None => VStr (py "Documento sin nombre")
               end
  ++ py " - Página N/A]:" ++ [LF].

Lemma context_part_plain (doc : Document) :
  contains (py "[Página ") (page_content doc) = false ->
  context_part doc = header_without_page doc ++ strip (page_content doc).
Proof.
  intros H. unfold context_part, header_without_page, search, page_marker_group,
    page_marker.
  rewrite literal_prefix_no_search by exact H.
  rewrite literal_prefix_no_sub by exact H.
  now rewrite <- !app_assoc.
Qed.

(** For a document whose content holds no "[Página " the context entry
    reports the page as N/A and gives the content unchanged but for
    trimming; a document without source is named "Documento sin nombre". *)
Theorem context_part_without_marker :
  forall doc : Document,
    contains (py "[Página ") (page_content doc) = false ->
    context_part doc = header_without_page doc ++ strip (page_content doc).
Proof. exact context_part_plain. Qed.

Lemma context_part_without_marker_witness :
  context_part {| page_content := py "  PÁGINA 3 Plazo de [diez] días  "; metadata := [] |}
  = py "[Fuente: Documento sin nombre - Página N/A]:" ++ [LF]
       ++ py "PÁGINA 3 Plazo de [diez] días".
Proof.
  rewrite context_part_without_marker by (vm_compute; reflexivity).
  vm_compute. reflexivity.
Defined.

(** Only the first ten relevant documents reach the context. *)
Theorem docs_context_first_ten :
  forall first_ten others : list Document,
    length first_ten = 10 ->
    docs_context (first_ten ++ others) = docs_context first_ten.
Proof.
  intros l1 l2 H. unfold docs_context.
  rewrite firstn_app. replace (10 - length l1) with 0 by lia.
  cbn [firstn]. now rewrite app_nil_r.
Qed.

Lemma docs_context_first_ten_witness :
  let doc := {| page_content := py "Texto"; metadata := [] |} in
  docs_context (repeat doc 10 ++ [{| page_content := py "Otro"; metadata := [] |}])
  = docs_context (repeat doc 10).
Proof.
  intros doc. apply docs_context_first_ten. reflexivity.
Defined.

End ContextFacts.

Section AnswerFacts.

Import QueryHandler.

Variable lower : str -> str.
Variable set_iter : list str -> list str.
Variable FAISS : Type.
Variable similarity_search : FAISS -> str -> N -> outcome (list (Document * score)).
Variable Client : Type.
Variable OpenAI : outcome Client.
Variable create : Client -> request -> outcome str.

Lemma answer_body_log (query : str) (index : option FAISS) (log : list log_record) :
  snd (answer_body lower set_iter similarity_search OpenAI create query index log)
  = log.
Proof.
  unfold answer_body. destruct index as [index|]; [|reflexivity].
  unfold bind at 1. unfold call at 1.
  destruct (similarity_search index (preprocess_query lower set_iter query) 20)
    as [docs|e]; [|reflexivity].
  destruct docs as [|p docs]; [reflexivity|].
  destruct (relevant (p :: docs)) as [|d ds]; [reflexivity|].
  unfold bind, call, ret. destruct OpenAI as [client|e]; [|reflexivity].
  destruct (create client _); reflexivity.
Qed.

(** The answer operation never writes a warning or an error to the log,
    whether it returns or raises. *)
Theorem answer_never_logs :
  forall (query : str) (index : option FAISS) (chat_history : list (str * str))
         (log : list log_record),
    snd (answer_query_with_context lower set_iter similarity_search OpenAI create
           query index chat_history log)
    = log.
Proof.
  intros query index chat_history log.
  unfold answer_query_with_context, try_except.
  pose proof (answer_body_log query index log) as H.
  destruct (answer_body lower set_iter similarity_search OpenAI create query index log)
    as [[text|e] log'] eqn:E; cbn [snd] in H; subst log'; [reflexivity|].
  unfold bind, logger_log. now rewrite logger_unbound.
Qed.

Lemma relevant_none (docs : list (Document * score)) :
  (forall d s, In (d, s) docs ->
               gt s (if is_article d then 0.03%float else 0.05%float) = false) ->
  relevant docs = [].
Proof.
  intros H. rewrite relevant_as_filters.
  assert (Hnil : forall (keep : Document * score -> bool),
            (forall p, In p docs -> keep p = false) -> filter keep docs = []).
  { intros keep Hk. induction docs as [|p ps IH]; [reflexivity|].
    cbn [filter]. rewrite (Hk p) by now left.
    apply IH; intros; [apply H|apply Hk]; now right. }
  rewrite !Hnil; [reflexivity| |].
  - intros [d s] Hin. cbn [fst snd]. specialize (H d s Hin).
    destruct (is_article d); [reflexivity|]. cbn [negb andb]. exact H.
  - intros [d s] Hin. cbn [fst snd]. specialize (H d s Hin).
    destruct (is_article d); [|reflexivity]. cbn [andb]. exact H.
Qed.

(** When documents are retrieved but none passes its type's threshold,
    the fixed message is returned: the generation service is not
    consulted, whatever it would answer. *)
Theorem answer_nothing_relevant :
  forall (query : str) (index : FAISS) (chat_history : list (str * str))
         (log : list log_record) (docs : list (Document * score)),
    similarity_search index (preprocess_query lower set_iter query) 20 = Return docs ->
    docs <> [] ->
    (forall d s, In (d, s) docs ->
                 gt s (if is_article d then 0.03%float else 0.05%float) = false) ->
    answer_query_with_context lower set_iter similarity_search OpenAI create
      query (Some index) chat_history log
    = (Return (py "No encontré información suficientemente relevante. "
                  ++ py "¿Podrías reformular tu pregunta?"),
       log).
Proof.
  intros query index chat_history log docs Hs Hne Hlow.
  unfold answer_query_with_context, try_except, answer_body.
  unfold bind at 1. unfold call at 1. rewrite Hs.
  destruct docs as [|p docs]; [now destruct Hne|].
  now rewrite (@relevant_none (p :: docs) Hlow).
Qed.

End AnswerFacts.

Lemma answer_nothing_relevant_witness :
  QueryHandler.answer_query_with_context
    (fun s => s) (fun terms => terms)
    (fun (_ : unit) _ _ =>
       Return [({| page_content := py "Artículo 2. Objeto.";
                   metadata := [("content_type", VStr (py "article"))]%string |},
                QueryHandler.Float64 0.03);
               ({| page_content := py "Texto general";
                   metadata := [("content_type", VStr (py "general"))]%string |},
                QueryHandler.Float32 0.05)])
    (Raise (Exception "OpenAIError" (py "The api_key client option must be set")))
    (fun (_ : unit) _ => Return (py "respuesta"))
    (py "objeto") (Some tt) [] []
  = (Return (py "No encontré información suficientemente relevante. "
                ++ py "¿Podrías reformular tu pregunta?"), []).
Proof.
  eapply answer_nothing_relevant.
  - reflexivity.
  - discriminate.
  - intros d s [H|[H|[]]]; apply pair_equal_spec in H; destruct H as [<- <-];
      vm_compute; reflexivity.
Defined.

Section ChatHistory.

Import QueryHandler.

(** A message that has both keys. *)
Definition complete (msg : dict) : bool :=
  match dict_get msg "role", dict_get msg "content" with
  | Some _, Some _ => true
  | _, _ => false
  end.

(** The line written for a complete message. *)
Definition chat_line (msg : dict) : str :=
  match dict_get msg "role", dict_get msg "content" with
  | Some r, Some c =>
      (if value_eqb r (VStr (py "user")) then py "Usuario" else py "Asistente")
      ++ py ": " ++ value_str c
  | _, _ => []
  end.

(** The exception of a message that lacks a key: the role is looked up
    first. *)
Definition missing_key (msg : dict) : option exn :=
  match dict_get msg "role", dict_get msg "content" with
  | None, _ => Some (Exception "KeyError" (py "'role'"))
  | Some _, None => Some (Exception "KeyError" (py "'content'"))
  | Some _, Some _ => None
  end.

Lemma format_messages_spec :
  forall (msgs : list dict) (formatted : list str),
    match format_messages msgs formatted with
    | Return lines =>
        lines = formatted ++ map chat_line msgs /\ forallb complete msgs = true
    | Raise e =>
        exists before msg after,
          msgs = before ++ msg :: after
          /\ forallb complete before = true
          /\ missing_key msg = Some e
    end.
Proof.
  induction msgs as [|msg msgs IH]; intros formatted.
  - cbn [format_messages map forallb]. now rewrite app_nil_r.
  - cbn [format_messages map forallb]. unfold dict_item.
    destruct (dict_get msg "role") as [r|] eqn:Er.
    + destruct (dict_get msg "content") as [c|] eqn:Ec.
      * assert (Hc : complete msg = true)
          by (unfold complete; now rewrite Er, Ec).
        assert (Hl : chat_line msg
                     = (if value_eqb r (VStr (py "user"))
                        then py "Usuario" else py "Asistente")
                       ++ py ": " ++ value_str c)
          by (unfold chat_line; now rewrite Er, Ec).
        rewrite Hc, Hl. cbn [andb].
        specialize (IH (formatted ++
                          [(if value_eqb r (VStr (py "user"))
                            then py "Usuario" else py "Asistente")
                           ++ py ": " ++ value_str c])).
        destruct (format_messages msgs _) as [lines|e].
        -- destruct IH as [-> ->]. rewrite <- app_assoc. split; reflexivity.
        -- destruct IH as [before [m [after [-> [Hb Hm]]]]].
           exists (msg :: before), m, after. repeat split; [|exact Hm].
           cbn [forallb]. now rewrite Hc, Hb.
      * exists [], msg, msgs. repeat split.
        unfold missing_key. now rewrite Er, Ec.
    + exists [], msg, msgs. repeat split.
      unfold missing_key. now rewrite Er.
Qed.

(** [format_chat_history] looks at the messages of the recent window only.
    When each of them has a role and a content, it returns one line per
    message, in order, "Usuario: ..." for the role "user" and
    "Asistente: ..." for any other, joined by newlines.  Otherwise it
    raises the [KeyError] of the first message that lacks a key: for
    'role' when the role is missing, for 'content' when only the content
    is. *)
Theorem format_chat_history_lines :
  forall (chat_history : list dict) (max_history : Z),
    let recent := slice_from (- max_history * 2)%Z chat_history in
    match format_chat_history chat_history max_history with
    | Return text =>
        text = join [LF] (map chat_line recent) /\ forallb complete recent = true
    | Raise e =>
        exists before msg after,
          recent = before ++ msg :: after
          /\ forallb complete before = true
          /\ ((dict_get msg "role" = None
               /\ e = Exception "KeyError" (py "'role'"))
              \/ (dict_get msg "role" <> None
                  /\ dict_get msg "content" = None
                  /\ e = Exception "KeyError" (py "'content'")))
    end.
Proof.
  intros chat_history max_history recent. unfold format_chat_history. fold recent.
  pose proof (format_messages_spec recent []) as H.
  destruct (format_messages recent []) as [lines|e].
  - destruct H as [-> Hc]. cbn [app]. split; [reflexivity|exact Hc].
  - destruct H as [before [msg [after [Hr [Hb Hm]]]]].
    exists before, msg, after. split; [exact Hr|]. split; [exact Hb|].
    unfold missing_key in Hm.
    destruct (dict_get msg "role") as [r|].
    + destruct (dict_get msg "content") as [c|]; [discriminate|].
      right. split; [discriminate|]. split; [reflexivity|].
      now injection Hm as <-.
    + left. split; [reflexivity|]. now injection Hm as <-.
Qed.

(** The recent window is the last [2 * max_history] messages when
    [max_history] is positive (all of them when there are fewer), but the
    whole history when [max_history] is 0. *)
Theorem chat_history_window :
  forall (chat_history : list dict) (max_history : Z),
    let recent := slice_from (- max_history * 2)%Z chat_history in
    ((0 < max_history)%Z ->
     recent = skipn (length chat_history - 2 * Z.to_nat max_history) chat_history
     /\ length recent = Nat.min (length chat_history) (2 * Z.to_nat max_history))
    /\ (max_history = 0%Z -> recent = chat_history).
Proof.
  intros chat_history max_history recent. unfold recent, slice_from. split.
  - intros Hpos.
    replace (- max_history * 2 <? 0)%Z with true by (symmetry; apply Z.ltb_lt; lia).
    replace (Z.to_nat (Z.max 0 (Z.of_nat (length chat_history) + - max_history * 2)))
      with (length chat_history - 2 * Z.to_nat max_history) by lia.
    split; [reflexivity|]. rewrite length_skipn. lia.
  - intros ->. reflexivity.
Qed.

End ChatHistory.

Section QueryExpansion.

Import QueryHandler.

Variable lower : str -> str.
Variable set_iter : list str -> list str.

(** The query in lower case without punctuation (lines 12-13). *)
Definition normalized_query (query : str) : str :=
  sub (One (NoneOf [Word; Space])) [] (lower query).

(** The set [expanded_terms] once the loop of lines 29-31 has run. *)
Definition expanded_terms (query : str) : list str :=
  fold_left
    (fun terms word =>
       match expansion_of word expansions with
       | Some l => fold_left (fun acc x => set_add x acc) l terms
       | None => terms
       end)
    (split (normalized_query query)) [normalized_query query].

Lemma preprocess_query_terms (query : str) :
  preprocess_query lower set_iter query
  = join [SP] (set_iter (expanded_terms query)).
Proof. reflexivity. Qed.

Lemma str_equal_eq (a b : str) : Str.equal a b = true <-> a = b.
Proof.
  revert b. induction a as [|x a IH]; intros b; destruct b as [|y b];
    cbn [Str.equal].
  - split; reflexivity.
  - split; discriminate.
  - split; discriminate.
  - rewrite andb_true_iff, N.eqb_eq, IH. split.
    + intros [Hx Ha]. now subst.
    + intros H. injection H as Hx Ha. now subst.
Qed.

Lemma set_add_In (x y : str) (s : list str) :
  In y (set_add x s) <-> y = x \/ In y s.
Proof.
  unfold set_add. destruct (existsb (Str.equal x) s) eqn:E.
  - split; [auto|]. intros [->|H]; [|exact H].
    apply existsb_exists in E. destruct E as [z [Hz Hxz]].
    apply str_equal_eq in Hxz. now subst z.
  - rewrite in_app_iff. cbn [In]. split.
    + intros [H|[H|[]]]; auto.
    + intros [H|H]; auto.
Qed.

Lemma set_add_NoDup (x : str) (s : list str) : NoDup s -> NoDup (set_add x s).
Proof.
  intros H. unfold set_add. destruct (existsb (Str.equal x) s) eqn:E; [exact H|].
  apply NoDup_app; [exact H|repeat constructor; intros []|].
  intros y Hy [Hxy|[]]. subst y.
  assert (Hex : existsb (Str.equal x) s = true).
  { apply existsb_exists. exists x. split; [exact Hy|now apply str_equal_eq]. }
  rewrite Hex in E. discriminate.
Qed.

Lemma add_all_In (l : list str) :
  forall (s : list str) (y : str),
    In y (fold_left (fun acc x => set_add x acc) l s) <-> In y l \/ In y s.
Proof.
  induction l as [|x l IH]; intros s y; cbn [fold_left In]; [tauto|].
  rewrite IH, set_add_In. split; [intros [H|[H|H]]|intros [[H|H]|H]]; auto.
Qed.

Lemma add_all_NoDup (l : list str) :
  forall s : list str, NoDup s -> NoDup (fold_left (fun acc x => set_add x acc) l s).
Proof.
  induction l as [|x l IH]; intros s H; cbn [fold_left]; [exact H|].
  apply IH. now apply set_add_NoDup.
Qed.

Lemma expand_words_spec (words : list str) :
  forall (terms : list str),
    NoDup terms ->
    let result :=
      fold_left
        (fun terms word =>
           match expansion_of word expansions with
           | Some l => fold_left (fun acc x => set_add x acc) l terms
           | None => terms
           end)
        words terms in
    NoDup result
    /\ forall y,
         In y result <->
         In y terms
         \/ exists word synonyms,
              In word words
              /\ expansion_of word expansions = Some synonyms
              /\ In y synonyms.
Proof.
  induction words as [|word words IH]; intros terms Hnd; cbn zeta; cbn [fold_left].
  - split; [exact Hnd|]. intros y. split; [auto|].
    intros [H|[w [l [[] _]]]]. exact H.
  - destruct (expansion_of word expansions) as [l|] eqn:E.
    + destruct (IH _ (add_all_NoDup l Hnd)) as [Hnd' Hin]. split; [exact Hnd'|].
      intros y. rewrite Hin, add_all_In. split.
      * intros [[H|H]|[w [l' [Hw [Hl Hy]]]]].
        -- right. exists word, l. repeat split; [now left|exact E|exact H].
        -- now left.
        -- right. exists w, l'. repeat split; [now right|exact Hl|exact Hy].
      * intros [H|[w [l' [[<-|Hw] [Hl Hy]]]]].
        -- left. now right.
        -- rewrite E in Hl. injection Hl as <-. left. now left.
        -- right. exists w, l'. repeat split; assumption.
    + destruct (IH _ Hnd) as [Hnd' Hin]. split; [exact Hnd'|].
      intros y. rewrite Hin. split.
      * intros [H|[w [l' [Hw [Hl Hy]]]]]; [now left|].
        right. exists w, l'. repeat split; [now right|exact Hl|exact Hy].
      * intros [H|[w [l' [[<-|Hw] [Hl Hy]]]]]; [now left| |].
        -- rewrite E in Hl. discriminate.
        -- right. exists w, l'. repeat split; assumption.
Qed.

(** The effective query is the space-joined iteration of a set of terms
    without repetition, which holds the normalised query itself and,
    besides it, exactly the synonyms the table gives for the words of the
    normalised query; the normalised query holds word characters and
    whitespace only. *)
Theorem expanded_terms_spec :
  forall query : str,
    preprocess_query lower set_iter query
    = join [SP] (set_iter (expanded_terms query))
    /\ NoDup (expanded_terms query)
    /\ (forall term,
          In term (expanded_terms query) <->
          term = normalized_query query
          \/ exists word synonyms,
               In word (split (normalized_query query))
               /\ expansion_of word expansions = Some synonyms
               /\ In term synonyms)
    /\ Forall (fun c => has (OneOf [Word; Space]) c = true) (normalized_query query).
Proof.
  intros query. split; [reflexivity|].
  assert (Hnd : NoDup [normalized_query query])
    by (repeat constructor; intros []).
  destruct (expand_words_spec (split (normalized_query query)) Hnd) as [H1 H2].
  split; [exact H1|]. split.
  - intros term. unfold expanded_terms. rewrite H2. cbn [In]. split.
    + intros [[H|[]]|H]; [left; now symmetry|now right].
    + intros [H|H]; [left; left; now symmetry|now right].
  - unfold normalized_query. rewrite sub_one_delete.
    apply Forall_forall. intros c Hc. apply filter_In in Hc.
    destruct Hc as [_ Hc]. cbn [has] in Hc. cbn [has].
    now rewrite negb_involutive in Hc.
Qed.

End QueryExpansion.

(* ================================================================== *)
(** * From the builder to the context: the page of an article *)
(* ================================================================== *)

Section MatchPositions.

Lemma startswith_split (s w : str) :
  startswith s w = true -> s = w ++ skipn (length w) s.
Proof.
  revert s. induction w as [|a w IH]; intros s H; [reflexivity|].
  destruct s as [|b s]; [discriminate|]. cbn [startswith] in H.
  apply andb_prop in H. destruct H as [Hab Hs]. apply N.eqb_eq in Hab. subst b.
  cbn [length skipn app]. f_equal. now apply IH.
Qed.

(** A match leaves a suffix of what it started from. *)
Lemma runs_suffix :
  forall (r : regex) (s : str) (g : groups) (e : str * groups),
    In e (runs r s g) -> exists w, s = w ++ fst e.
Proof.
  induction r as [w|cs|cs lo greedy|r1 IH1 r2 IH2|r1 IH1 r2 IH2|i r IH|r IH|];
    intros s g e Hin.
  - cbn [runs] in Hin. destruct (startswith s w) eqn:E; [|destruct Hin].
    destruct Hin as [<-|[]]. exists w. cbn [fst]. now apply startswith_split.
  - cbn [runs] in Hin. destruct s as [|c t]; [destruct Hin|].
    destruct (has cs c); [|destruct Hin]. destruct Hin as [<-|[]].
    exists [c]. reflexivity.
  - apply runs_rep in Hin. destruct Hin as [_ [w [Hw _]]]. eauto.
  - apply runs_cat in Hin. destruct Hin as [e1 [H1 H2]].
    destruct (IH1 _ _ _ H1) as [w1 Hw1]. destruct (IH2 _ _ _ H2) as [w2 Hw2].
    exists (w1 ++ w2). rewrite <- app_assoc, <- Hw2. exact Hw1.
  - cbn [runs] in Hin. apply in_app_or in Hin. destruct Hin; eauto.
  - apply runs_group in Hin. destruct Hin as [e' [H' ->]]. cbn [fst]. eauto.
  - cbn [runs] in Hin. destruct (runs r s g) as [|e0 l]; [destruct Hin|].
    destruct Hin as [<-|[]]. exists []. reflexivity.
  - cbn [runs] in Hin. exists [].
    destruct s as [|c [|c' t]]; try (now destruct Hin as [<-|[]]);
      try (now destruct Hin).
    destruct (N.eqb c LF); [|destruct Hin]. now destruct Hin as [<-|[]].
Qed.

Variable r : regex.
Variable P : str -> groups -> Prop.
Hypothesis P_suffix : forall w s g, P s g -> P (w ++ s) g.
Hypothesis runs_P : forall s e, In e (runs r s []) -> P s (snd e).

Lemma search_from_at :
  forall (s : str) (nonempty : bool) (m : found),
    search_from r s nonempty = Some m ->
    P s (captures m) /\ exists w, s = w ++ after m.
Proof.
  induction s as [|c t IH]; intros nonempty m; cbn [search_from].
  - destruct (match_at r [] nonempty) as [e|] eqn:E; [|discriminate].
    intros H. injection H as <-. cbn [captures after].
    unfold match_at in E. apply hd_error_In in E. apply filter_In in E.
    destruct E as [E _]. split; [now apply runs_P|now apply runs_suffix in E].
  - destruct (match_at r (c :: t) nonempty) as [e|] eqn:E.
    + intros H. injection H as <-. cbn [captures after].
      unfold match_at in E. apply hd_error_In in E. apply filter_In in E.
      destruct E as [E _]. split; [now apply runs_P|now apply runs_suffix in E].
    + destruct (search_from r t false) as [m'|] eqn:E'; [|discriminate].
      intros H. injection H as <-. cbn [captures after].
      destruct (IH _ _ E') as [HP [w Hw]]. split.
      * apply (P_suffix [c]). exact HP.
      * exists (c :: w). cbn [app]. now rewrite <- Hw.
Qed.

Lemma scan_at :
  forall (fuel : nat) (s : str) (nonempty : bool),
    Forall (fun m => P s (captures m)) (scan fuel r s nonempty).
Proof.
  induction fuel as [|fuel IH]; intros s nonempty; cbn [scan]; [constructor|].
  destruct (search_from r s nonempty) as [m|] eqn:E; [|constructor].
  destruct (search_from_at _ _ E) as [HP [w Hw]].
  constructor; [exact HP|].
  specialize (IH (after m) (match matched m with [] => true | _ => false end)).
  revert IH. apply Forall_impl. intros m' Hm'.
  rewrite Hw. now apply P_suffix.
Qed.

End MatchPositions.

Section ArticleContext.

Import ExtractDocuments QueryHandler.

(** The groups of a match of [article_pattern] are made of characters of
    the text it is matched in. *)
Lemma article_pattern_groups_in (s : str) (e : str * groups) :
  In e (runs article_pattern s []) ->
  exists num body,
    snd e = [(2, body); (1, num)] /\ incl num s /\ incl body s.
Proof.
  unfold article_pattern. intros H.
  apply runs_cat in H. destruct H as [e1 [H1 H]].
  pose proof (runs_suffix _ _ _ _ H1) as [w1 S1].
  apply (runs_group_free marker eq_refl) in H1.
  apply runs_cat in H. destruct H as [e2 [H2 H]].
  apply runs_rep in H2. destruct H2 as [G2 [w2 [S2 _]]].
  apply runs_cat in H. destruct H as [e3 [H3 H]].
  apply runs_group in H3. destruct H3 as [e3' [H3 E3]].
  apply runs_rep in H3. destruct H3 as [G3 [num [Hnum _]]].
  apply runs_cat in H. destruct H as [e4 [H4 H]].
  apply runs_rep in H4. destruct H4 as [G4 [w4 [S4 _]]].
  apply runs_cat in H. destruct H as [e5 [H5 H]].
  apply runs_group in H5. destruct H5 as [e5' [H5 E5]].
  apply runs_rep in H5. destruct H5 as [G5 [body [Hbody _]]].
  apply runs_group_free in H; [|reflexivity].
  exists num, body. split; [|split].
  - rewrite H, E5. cbn [snd]. rewrite G5, G4, E3. cbn [snd].
    rewrite G3, G2, H1. rewrite Hnum at 1. rewrite Hbody at 1.
    now rewrite !consumed_app.
  - rewrite S1, S2, Hnum. intros c Hc. rewrite !in_app_iff. tauto.
  - rewrite S1, S2, Hnum. rewrite E3 in S4. cbn [fst] in S4.
    rewrite S4, Hbody. intros c Hc. rewrite !in_app_iff. tauto.
Qed.

(** Every character of an extracted article comes from the text or from
    the rebuilt heading. *)
Lemma article_content_chars (text : str) (a : article) :
  In a (extract_article_with_context text) ->
  incl (content a) (py "Artículo . " ++ text).
Proof.
  unfold extract_article_with_context, finditer. intros Hin.
  apply in_map_iff in Hin. destruct Hin as [m [<- Hm]]. cbn [content].
  pose proof (@scan_at article_pattern
                (fun s g => exists num body,
                     g = [(2, body); (1, num)] /\ incl num s /\ incl body s)) as Hall.
  specialize (Hall
    (fun w s g H =>
       match H with
       | ex_intro _ num (ex_intro _ body (conj Hg (conj Hn Hb))) =>
           ex_intro _ num
             (ex_intro _ body
                (conj Hg (conj (incl_appr w Hn) (incl_appr w Hb))))
       end)
    article_pattern_groups_in (2 * length text + 2) text false).
  rewrite Forall_forall in Hall.
  destruct (Hall m Hm) as [num [body [Hg [Hn Hb]]]].
  unfold group_text, group. rewrite Hg. cbn [lookup Nat.eqb].
  assert (Hs : incl (strip body) text).
  { destruct (strip_factor body) as [u [v Hf]]. intros c Hc. apply Hb.
    rewrite Hf. rewrite !in_app_iff. auto. }
  intros c Hc. rewrite !in_app_iff in Hc. rewrite in_app_iff.
  destruct Hc as [Hc|[Hc|[Hc|Hc]]].
  - left. revert c Hc. vm_compute. tauto.
  - right. now apply Hn.
  - left. revert c Hc. vm_compute. tauto.
  - right. now apply Hs.
Qed.

Lemma contains_needs_head (c : char) (w s : str) :
  ~ In c s -> contains (c :: w) s = false.
Proof.
  induction s as [|b s IH]; intros H; [reflexivity|].
  cbn [contains startswith]. rewrite IH by (intros Hin; apply H; now right).
  rewrite orb_false_r. destruct (N.eqb c b) eqn:E; [|reflexivity].
  apply N.eqb_eq in E. subst b. exfalso. apply H. now left.
Qed.

Lemma page_marker_head : py "[Página " = ch "[" :: py "Página ".
Proof. vm_compute. reflexivity. Qed.

Lemma heading_no_bracket : ~ In (ch "[") (py "Artículo . ").
Proof. vm_compute. intuition discriminate. Qed.

Variable split_text : str -> list str.
Variable lower : str -> str.
Variable folder_path : str.

(** For every article the builder stores, whatever the files: the context
    entry assembled by the query pipeline reports the page as N/A and
    gives the article's content unchanged but for trimming.  The markers
    "[PÁGINA i]" written by the builder lose their brackets in
    [clean_text], so no "[Página i]" token is ever found. *)
Theorem built_articles_context :
  forall (listing : list entry) (log : list log_record),
  exists docs log',
    extract_text_from_folder split_text lower folder_path listing log
    = (Return docs, log')
    /\ Forall
         (fun d =>
            is_article d = true ->
            context_part d = header_without_page d ++ strip (page_content d))
         docs.
Proof.
  intros listing log. unfold extract_text_from_folder.
  rewrite process_files_spec. cbn [app]. eexists. eexists.
  split; [reflexivity|]. apply Forall_forall. intros d Hd Hart.
  apply built_document_origin in Hd.
  destruct Hd as [f [pages [ft [pt [_ [_ [_ [_ Hd]]]]]]]].
  destruct Hd as [Hd|[chunks Hd]].
  - apply article_document_metadata in Hd. destruct Hd as [a [Ha [Hc _]]].
    apply context_part_plain. rewrite Hc, page_marker_head.
    apply contains_needs_head. intros Hin.
    apply (article_content_chars _ _ Ha) in Hin. apply in_app_or in Hin.
    destruct Hin as [Hin|Hin]; [now apply heading_no_bracket|].
    pose proof (clean_text_allowed ft) as Hall. unfold all_allowed in Hall.
    rewrite Forall_forall in Hall. specialize (Hall _ Hin).
    destruct bracket_not_allowed as [Hb _]. rewrite Hb in Hall. discriminate.
  - apply general_document_metadata in Hd. destruct Hd as [_ Hm].
    assert (Hg : is_article d = false).
    { apply general_tag_not_article. rewrite Hm. reflexivity. }
    rewrite Hg in Hart. discriminate.
Qed.

End ArticleContext.
